(** * MirAI agent framework: a shallow embedding of [agente-ia/src]

    The development follows the Python sources [agent.py] and
    [data_processor.py].  Python values that travel through configuration
    documents, training records and snapshots are embedded as a small
    document type; exceptions are a result type; object state is passed
    explicitly; collaborators that live outside the repository (the
    text-generation backend, scikit-learn, the pseudo-random generator) are
    type classes, of which nothing is assumed beyond their signatures. *)

From Stdlib Require Import ZArith Floats Lia Ascii String.
From stdpp Require Import base option list strings gmap.

#[local] Set Warnings "-register-all,-inexact-float".
#[local] Open Scope Z_scope.

(** ** Documents *)

(** What [json.load] / [yaml.safe_load] produce: a tree with string keys. *)
Inductive value :=
| VNone
| VBool (b : bool)
| VInt (z : Z)
| VFloat (f : float)
| VStr (s : string)
| VList (l : list value)
| VDict (d : gmap string value).

Abbreviation dict := (gmap string value).

(** Python truth value testing ([if v:], [a or b], [not v]). *)
Definition truthy (v : value) : bool :=
  match v with
  | VNone => false
  | VBool b => b
  | VInt z => negb (Z.eqb z 0)
  | VFloat f => negb (PrimFloat.eqb f 0%float)
  | VStr s => negb (String.eqb s "")
  | VList l => match l with [] => false | _ :: _ => true end
  | VDict d => match map_to_list d with [] => false | _ :: _ => true end
  end.

(** [a or b] *)
Definition py_or (a b : value) : value := if truthy a then a else b.

(** ** Exceptions *)

(** The exceptions the embedded code can meet.  [RatioError] is the
    [ValueError] of [split_data], whose message carries the float sum;
    [ExternalError] is any exception of a collaborator. *)
Inductive exn :=
| AttributeError (attr : string)
| KeyError (key : string)
| TypeError (what : string)
| ValueError (what : string)
| RatioError (total : float)
| OverflowError (what : string)
| FileNotFoundError (path : string)
| FileExistsError (path : string)
| NotADirectoryError (path : string)
| IsADirectoryError (path : string)
| ImportError (what : string)
| IndexError (what : string)
| ExternalError (what : string).

Inductive result (A : Type) :=
| Ok (a : A)
| Raise (e : exn).
Arguments Ok {A} a.
Arguments Raise {A} e.

#[export] Instance result_ret : MRet result := fun _ a => Ok a.
#[export] Instance result_bind : MBind result := fun _ _ f m =>
  match m with
  | Ok a => f a
  | Raise e => Raise e
  end.

#[export] Instance result_fmap : FMap result := fun _ _ f r =>
  match r with
  | Ok a => Ok (f a)
  | Raise e => Raise e
  end.

(** A method: it reads and updates [self] and returns or raises.  The state
    a raising call leaves behind is kept, as in Python. *)
Definition method (S A : Type) : Type := S → S * result A.

#[export] Instance method_ret {S} : MRet (method S) := fun _ a self => (self, Ok a).
#[export] Instance method_bind {S} : MBind (method S) := fun _ _ f m self =>
  match m self with
  | (self', Ok a) => f a self'
  | (self', Raise e) => (self', Raise e)
  end.

(** A computation that does not touch [self]. *)
Definition pure_ {S A} (r : result A) : method S A := fun self => (self, r).
(** Reading an attribute of [self]. *)
Definition attr {S A} (f : S → A) : method S A := fun self => (self, Ok (f self)).
(** An assignment to [self]. *)
Definition assign {S} (f : S → S) : method S unit := fun self => (f self, Ok tt).

(** [[f x for x in l]], stopping at the first exception. *)
Fixpoint comprehension {A B} (f : A → result B) (l : list A) : result (list B) :=
  match l with
  | [] => Ok []
  | x :: rest => y ← f x; ys ← comprehension f rest; Ok (y :: ys)
  end.

(** ** Dictionary access *)

(** [d.get(k)] on a dict: the value or [None]. *)
Definition get (d : dict) (k : string) : value := default VNone (d !! k).

(** [d.get(k, dflt)] *)
Definition get_or (d : dict) (k : string) (dflt : value) : value :=
  default dflt (d !! k).

(** Attribute lookup [v.attr] for the dict methods the code calls: only a
    dict has them. *)
Definition as_dict (attr : string) (v : value) : result dict :=
  match v with
  | VDict d => Ok d
  | _ => Raise (AttributeError attr)
  end.

(** [v.get(k, dflt)] on an arbitrary document. *)
Definition py_get (v : value) (k : string) (dflt : value) : result value :=
  d ← as_dict "get" v; Ok (get_or d k dflt).

(** [v[k]] with a string key. *)
Definition subscript (v : value) (k : string) : result value :=
  match v with
  | VDict d =>
      match d !! k with
      | Some x => Ok x
      | None => Raise (KeyError k)
      end
  | _ => Raise (TypeError "subscript")
  end.

(** ** Sequences *)

(** Python slice [l[lo:hi]] (step 1); [None] is an omitted bound.  Negative
    bounds count from the end and every bound is clamped to [0, len]. *)
Definition slice_bound (n i : Z) : Z :=
  if i <? 0 then Z.max (i + n) 0 else Z.min i n.

Definition py_slice {A} (lo hi : option Z) (l : list A) : list A :=
  let n := Z.of_nat (length l) in
  let lo' := slice_bound n (default 0 lo) in
  let hi' := slice_bound n (default n hi) in
  take (Z.to_nat (hi' - lo')) (drop (Z.to_nat lo') l).

(** The last [n] entries of a list, all of them when there are fewer. *)
Definition last_n {A} (n : nat) (l : list A) : list A :=
  drop (length l - n) l.

(** Unary minus [-v]. *)
Definition py_neg (v : value) : result value :=
  match v with
  | VInt z => Ok (VInt (- z))
  | VBool b => Ok (VInt (- (if b then 1 else 0)))
  | VFloat f => Ok (VFloat (- f)%float)
  | _ => Raise (TypeError "bad operand type for unary -")
  end.

(** A slice bound must be an integer (or [None]). *)
Definition py_index (v : value) : result Z :=
  match v with
  | VInt z => Ok z
  | VBool b => Ok (if b then 1 else 0)
  | _ => Raise (TypeError "slice indices must be integers")
  end.

(** The one-character strings of [s]. *)
Fixpoint chars (s : string) : list value :=
  match s with
  | EmptyString => []
  | String c rest => VStr (String c EmptyString) :: chars rest
  end.

(** [for x in v]: the items a document yields when iterated. *)
Definition py_iter (v : value) : result (list value) :=
  match v with
  | VList l => Ok l
  | VDict d => Ok ((fun kv => VStr kv.1) <$> map_to_list d)
  | VStr s => Ok (chars s)
  | _ => Raise (TypeError "object is not iterable")
  end.

(** [v == s] for a string literal [s]. *)
Definition eq_str (v : value) (s : string) : bool :=
  match v with
  | VStr s' => String.eqb s' s
  | _ => false
  end.

(** ** The file system and the clock *)

(** Files hold the document their JSON or YAML text denotes; the parsers
    and printers themselves are outside the model, as are permissions and
    symbolic links.  Paths are POSIX paths. *)
Module OS.

Inductive node :=
| Dir
| File (content : value).

(** Keys are absolute paths as component lists, root first; the root is
    always a directory. *)
Record world := World {
  fs : gmap (list string) node;
  cwd : list string
}.

Definition node_at (w : world) (p : list string) : option node :=
  match p with
  | [] => Some Dir
  | _ => fs w !! p
  end.

Definition is_sep (c : ascii) : bool := Ascii.eqb c "/"%char.

(** [s.split('/')] *)
Fixpoint split_sep (s : string) : list string :=
  match s with
  | EmptyString => [EmptyString]
  | String c rest =>
      if is_sep c then EmptyString :: split_sep rest
      else match split_sep rest with
           | [] => [String c EmptyString]
           | x :: xs => String c x :: xs
           end
  end.

(** [p[:p.rfind('/') + 1]] *)
Fixpoint upto_last_sep (p : string) : string :=
  match p with
  | EmptyString => EmptyString
  | String c rest =>
      match upto_last_sep rest with
      | EmptyString => if is_sep c then String c EmptyString else EmptyString
      | h => String c h
      end
  end.

(** [head == '/' * len(head)] *)
Fixpoint all_sep (s : string) : bool :=
  match s with
  | EmptyString => true
  | String c rest => is_sep c && all_sep rest
  end.

(** [head.rstrip('/')] *)
Fixpoint rstrip_sep (s : string) : string :=
  match s with
  | EmptyString => EmptyString
  | String c rest =>
      match rstrip_sep rest with
      | EmptyString => if is_sep c then EmptyString else String c EmptyString
      | r => String c r
      end
  end.

(** [os.path.dirname] *)
Definition dirname (p : string) : string :=
  let head := upto_last_sep p in
  if negb (String.eqb head "") && negb (all_sep head)
  then rstrip_sep head else head.

Definition is_absolute (p : string) : bool :=
  match p with
  | String c _ => is_sep c
  | EmptyString => false
  end.

Definition start_of (w : world) (p : string) : list string :=
  if is_absolute p then [] else cwd w.

(** One path component applied to a location. *)
Definition step (cur : list string) (c : string) : list string :=
  if String.eqb c "" || String.eqb c "." then cur
  else if String.eqb c ".." then removelast cur
  else cur ++ [c].

(** Path lookup: every component is taken from an existing directory; the
    location reached need not exist. *)
Fixpoint walk (w : world) (orig : string) (cur : list string)
    (comps : list string) : result (list string) :=
  match comps with
  | [] => Ok cur
  | c :: rest =>
      match node_at w cur with
      | Some Dir => walk w orig (step cur c) rest
      | Some (File _) => Raise (NotADirectoryError orig)
      | None => Raise (FileNotFoundError orig)
      end
  end.

Definition locate (w : world) (path : string) : result (list string) :=
  if String.eqb path "" then Raise (FileNotFoundError path)
  else walk w path (start_of w path) (split_sep path).

(** [open(path, 'r')] followed by [json.load] / [yaml.safe_load]. *)
Definition read_document (w : world) (path : string) : result value :=
  p ← locate w path;
  match node_at w p with
  | Some (File content) => Ok content
  | Some Dir => Raise (IsADirectoryError path)
  | None => Raise (FileNotFoundError path)
  end.

(** [open(path, 'w')] followed by [json.dump]. *)
Definition write_document (w : world) (path : string) (doc : value)
    : world * result unit :=
  match locate w path with
  | Raise e => (w, Raise e)
  | Ok p =>
      match node_at w p with
      | Some Dir => (w, Raise (IsADirectoryError path))
      | _ => (World (<[p := File doc]> (fs w)) (cwd w), Ok tt)
      end
  end.

(** The directory-creating loop of [os.makedirs(name, exist_ok=True)]:
    missing components are created left to right, existing directories are
    accepted, an existing file is an error. *)
Fixpoint mkdirs (w : world) (name : string) (cur : list string)
    (comps : list string) : world * result unit :=
  match comps with
  | [] => (w, Ok tt)
  | c :: rest =>
      let next := step cur c in
      match node_at w cur, node_at w next with
      | Some Dir, Some Dir => mkdirs w name next rest
      | Some Dir, Some (File _) =>
          (w, Raise (match rest with
                     | [] => FileExistsError name
                     | _ => NotADirectoryError name
                     end))
      | Some Dir, None =>
          mkdirs (World (<[next := Dir]> (fs w)) (cwd w)) name next rest
      | Some (File _), _ => (w, Raise (NotADirectoryError name))
      | None, _ => (w, Raise (FileNotFoundError name))
      end
  end.

(** [os.makedirs(name, exist_ok=True)]; the empty name is no path at all. *)
Definition makedirs (w : world) (name : string) : world * result unit :=
  if String.eqb name "" then (w, Raise (FileNotFoundError name))
  else mkdirs w name (start_of w name) (split_sep name).

(** Every location a path visits from [cur] is a directory. *)
Fixpoint dirs_along (w : world) (cur : list string) (comps : list string)
    : Prop :=
  match comps with
  | [] => True
  | c :: rest =>
      node_at w cur = Some Dir
      ∧ node_at w (step cur c) = Some Dir
      ∧ dirs_along w (step cur c) rest
  end.

End OS.

(** ** agent.py: BaseAgent *)

(** One entry of [history]: the dict [add_to_history] appends. *)
Record interaction := Interaction {
  timestamp : string;
  user : string;
  agent : string
}.

Module BaseAgent.

(** The attributes [BaseAgent.__init__] sets. *)
Record t := Make {
  config : value;
  name : value;
  version : value;
  history : list interaction
}.

Definition set_config (self : t) (c : value) : t :=
  Make c (name self) (version self) (history self).
Definition set_name (self : t) (n : value) : t :=
  Make (config self) n (version self) (history self).
Definition set_version (self : t) (v : value) : t :=
  Make (config self) (name self) v (history self).
Definition set_history (self : t) (h : list interaction) : t :=
  Make (config self) (name self) (version self) h.

(** [config.get(section, {}).get(key, dflt)], the lookup idiom of the
    module. *)
Definition lookup2 (config : value) (section key : string) (dflt : value)
    : result value :=
  sec ← py_get config section (VDict ∅); py_get sec key dflt.

(** [_load_config]: a missing file is an empty configuration; any other
    error propagates. *)
Definition _load_config (w : OS.world) (config_path : string) : result value :=
  match OS.read_document w config_path with
  | Ok doc => Ok doc
  | Raise (FileNotFoundError _) => Ok (VDict ∅)
  | Raise e => Raise e
  end.

Definition __init__ (w : OS.world) (config_path : string) : result t :=
  config ← _load_config w config_path;
  name ← lookup2 config "agent" "name" (VStr "Agent");
  version ← lookup2 config "agent" "version" (VStr "1.0.0");
  Ok (Make config name version []).

(** The document [save] writes; [now] is [datetime.now().isoformat()]. *)
Definition save_data (self : t) (now : string) : value :=
  VDict {[ "name" := name self; "version" := version self;
           "config" := config self; "timestamp" := VStr now ]}.

Definition save (self : t) (now : string) (w : OS.world) (path : string)
    : OS.world * result unit :=
  match OS.makedirs w (OS.dirname path) with
  | (w', Raise e) => (w', Raise e)
  | (w', Ok _) => OS.write_document w' path (save_data self now)
  end.

Definition add_to_history (self : t) (now : string)
    (user_input agent_response : string) : t :=
  set_history self (history self ++ [Interaction now user_input agent_response]).

(** [get_history]; [limit] is whatever the caller passes, [None] by
    default.  The agent is returned along with the result. *)
Definition get_history (self : t) (limit : value)
    : t * result (list interaction) :=
  if truthy limit then
    (self, i ← (m ← py_neg limit; py_index m);
           Ok (py_slice (Some i) None (history self)))
  else (self, Ok (history self)).

End BaseAgent.

(** What a subclass adds to [BaseAgent]: its constructor, and access to the
    inherited attributes. *)
Class AgentClass (A : Type) := {
  construct : OS.world → string → result A;
  base : A → BaseAgent.t;
  with_base : A → BaseAgent.t → A;
  (** assigning the inherited attributes, then reading them *)
  base_with_base : ∀ a b, base (with_base a b) = b;
  (** the constructor starts with [super().__init__(config_path)] and
      leaves the inherited attributes as that call set them *)
  construct_base : ∀ w config_path a,
    construct w config_path = Ok a →
    BaseAgent.__init__ w config_path = Ok (base a)
}.

(** The classmethod [BaseAgent.load], for any subclass [cls]. *)
Definition load {A} `{AgentClass A} (w : OS.world) (path config_path : string)
    : result A :=
  save_data ← OS.read_document w path;
  saved_config ← py_get save_data "config" (VDict ∅);
  agent ← construct w config_path;
  let b := base agent in
  let b := if truthy saved_config then BaseAgent.set_config b saved_config
           else b in
  n ← py_get save_data "name" (BaseAgent.name b);
  let b := BaseAgent.set_name b n in
  v ← py_get save_data "version" (BaseAgent.version b);
  let b := BaseAgent.set_version b v in
  Ok (with_base agent b).

(** A method of the base class run on a subclass instance. *)
Definition inherited {A B} `{AgentClass A} (m : method BaseAgent.t B)
    : method A B :=
  fun self => let '(b, r) := m (base self) in (with_base self b, r).

(** ** agent.py: ConversationalAgent *)

Record message := Message {
  role : string;
  content : value
}.

(** Outcome of the guarded block of [process]: the text read from the
    provider's response, or [str(e)] of the [Exception] the block raised
    (what [except Exception] catches). *)
Inductive reply :=
| Answer (text : string)
| Failed (str_e : string).

(** The text-generation collaborator. *)
Class Backend := {
  Client : Type;
  (** import the provider's library and build its client with the API key
      of the environment *)
  new_client : string → result Client;
  (** the provider's chat call on [model], [messages] and the generation
      parameters, and the extraction of the answer text *)
  create : Client → string → value → list message → dict → reply
}.

Module ConversationalAgent.
Section WithBackend.
Context `{Backend}.

Record t := Make {
  super : BaseAgent.t;
  model_config : value;
  provider : value;
  model_name : value;
  client : option Client
}.

Definition set_super (self : t) (b : BaseAgent.t) : t :=
  Make b (model_config self) (provider self) (model_name self) (client self).

Definition _init_client (provider : value) : result (option Client) :=
  if eq_str provider "openai" then
    match new_client "openai" with
    | Ok c => Ok (Some c)
    | Raise (ImportError _) => Ok None
    | Raise e => Raise e
    end
  else if eq_str provider "anthropic" then
    match new_client "anthropic" with
    | Ok c => Ok (Some c)
    | Raise (ImportError _) => Ok None
    | Raise e => Raise e
    end
  else Ok None.

Definition __init__ (w : OS.world) (config_path : string) : result t :=
  b ← BaseAgent.__init__ w config_path;
  model_config ← py_get (BaseAgent.config b) "model" (VDict ∅);
  provider ← py_get model_config "provider" (VStr "openai");
  model_name ← py_get model_config "model_name" (VStr "gpt-3.5-turbo");
  client ← _init_client provider;
  Ok (Make b model_config provider model_name client).

Lemma conversational_init_super (w : OS.world) (config_path : string) (a : t) :
  __init__ w config_path = Ok a →
  BaseAgent.__init__ w config_path = Ok (super a).
Proof.
  unfold __init__. destruct (BaseAgent.__init__ w config_path) as [b|]; [|done].
  simpl. destruct (py_get _ "model" _) as [mc|]; [|done].
  simpl. destruct (py_get mc "provider" _) as [pr|]; [|done].
  simpl. destruct (py_get mc "model_name" _) as [mn|]; [|done].
  simpl. destruct (_init_client pr) as [cl|]; [|done].
  simpl. by intros [= <-].
Qed.

#[global] Instance agent_class : AgentClass t := {
  construct := __init__;
  base := super;
  with_base := set_super;
  base_with_base := fun _ _ => eq_refl;
  construct_base := conversational_init_super
}.

(** The loop over [few_shot_examples]. *)
Fixpoint append_examples (examples : list value) (messages : list message)
    : result (list message) :=
  match examples with
  | [] => Ok messages
  | example :: rest =>
      u ← subscript example "user";
      a ← subscript example "assistant";
      append_examples rest
        (messages ++ [Message "user" u; Message "assistant" a])
  end.

(** The loop over [recent_history]. *)
Fixpoint append_history (recent_history : list interaction)
    (messages : list message) : list message :=
  match recent_history with
  | [] => messages
  | i :: rest =>
      append_history rest
        (messages ++ [Message "user" (VStr (user i));
                      Message "assistant" (VStr (agent i))])
  end.

(** [if context:] for [context : Optional[str]] *)
Definition context_given (context : option string) : bool :=
  match context with
  | Some c => negb (String.eqb c "")
  | None => false
  end.

Definition _build_messages (input_text : string) (context : option string)
    : method t (list message) :=
  config ← attr (fun self => BaseAgent.config (super self));
  let messages := [] in
  system_prompt ← pure_ (BaseAgent.lookup2 config "prompts" "system_prompt" (VStr ""));
  let messages :=
    if truthy system_prompt then messages ++ [Message "system" system_prompt]
    else messages in
  examples ← pure_ (BaseAgent.lookup2 config "prompts" "few_shot_examples" (VList []));
  items ← pure_ (py_iter examples);
  messages ← pure_ (append_examples items messages);
  memory_config ← pure_ (py_get config "memory" (VDict ∅));
  max_messages ← pure_ (py_get memory_config "max_messages" (VInt 5));
  recent_history ← inherited (fun b => BaseAgent.get_history b max_messages);
  let messages := append_history recent_history messages in
  let messages :=
    if context_given context
    then messages ++ [Message "system" (VStr ("Contexto: " +:+ default "" context))]
    else messages in
  mret (messages ++ [Message "user" (VStr input_text)]).

Definition _get_generation_params (kwargs : dict) : method t dict :=
  config ← attr (fun self => BaseAgent.config (super self));
  agent_params ← pure_ (BaseAgent.lookup2 config "agent" "parameters" (VDict ∅));
  temperature ← pure_ (py_get agent_params "temperature" (VFloat 0.7));
  max_tokens ← pure_ (py_get agent_params "max_tokens" (VInt 500));
  top_p ← pure_ (py_get agent_params "top_p" (VFloat 0.9));
  mret ({[ "temperature" := get_or kwargs "temperature" temperature;
           "max_tokens" := get_or kwargs "max_tokens" max_tokens;
           "top_p" := get_or kwargs "top_p" top_p ]} : dict).

Definition not_configured : string :=
  "Lo siento, el agente no está configurado correctamente. Revisa tu API key.".

(** The [try] block: the provider call, then the history update; and the
    [except Exception] handler. *)
Definition generate (c : Client) (now input_text : string)
    (messages : list message) (params : dict) : method t string :=
  fun self =>
    let r :=
      if eq_str (provider self) "openai" then
        create c "openai" (model_name self) messages params
      else if eq_str (provider self) "anthropic" then
        create c "anthropic" (model_name self) messages params
      else Answer "Proveedor no soportado" in
    match r with
    | Answer answer =>
        (set_super self (BaseAgent.add_to_history (super self) now input_text answer),
         Ok answer)
    | Failed str_e => (self, Ok ("Lo siento, ocurrió un error: " +:+ str_e))
    end.

(** [process]; [now] is the clock reading [add_to_history] takes. *)
Definition process (now input_text : string) (context : option string)
    (kwargs : dict) : method t string :=
  fun self =>
    match client self with
    | None => (self, Ok not_configured)
    | Some c =>
        (messages ← _build_messages input_text context;
         params ← _get_generation_params kwargs;
         generate c now input_text messages params) self
    end.

(** The export file of [_prepare_finetuning_data]. *)
Definition output_file : string := "data/training/finetuning_data.jsonl".

(** The record written for one training item. *)
Definition formatted (item : dict) : value :=
  VDict {[ "messages" :=
    VList [VDict {[ "role" := VStr "user";
                    "content" := get_or item "user" (VStr "") ]};
           VDict {[ "role" := VStr "assistant";
                    "content" := get_or item "assistant" (VStr "") ]}] ]}.

(** The loop of [_prepare_finetuning_data]: the lines written so far, and
    how the loop ended. *)
Fixpoint write_lines (training_data : list value) (lines : list value)
    : list value * result unit :=
  match training_data with
  | [] => (lines, Ok tt)
  | item :: rest =>
      match as_dict "get" item with
      | Ok d => write_lines rest (lines ++ [formatted d])
      | Raise e => (lines, Raise e)
      end
  end.

(** [_prepare_finetuning_data].  A JSON-lines file denotes the list of the
    documents of its lines; [open(..., 'w')] empties the file, and the lines
    written before an exception stay in it. *)
Definition _prepare_finetuning_data (self : t) (training_data : list value)
    (w : OS.world) : OS.world * result unit :=
  match OS.makedirs w (OS.dirname output_file) with
  | (w1, Raise e) => (w1, Raise e)
  | (w1, Ok _) =>
      match OS.write_document w1 output_file (VList []) with
      | (w2, Raise e) => (w2, Raise e)
      | (w2, Ok _) =>
          let '(lines, r) := write_lines training_data [] in
          match OS.write_document w2 output_file (VList lines) with
          | (w3, Raise e) => (w3, Raise e)
          | (w3, Ok _) => (w3, r)
          end
      end
  end.

(** [train]: nothing is assigned to [self]; the export runs when asked
    for. *)
Definition train (self : t) (training_data : list value) (kwargs : dict)
    (w : OS.world) : OS.world * result unit :=
  if truthy (get_or kwargs "prepare_for_finetuning" (VBool false))
  then _prepare_finetuning_data self training_data w
  else (w, Ok tt).

(** *** Reading of the specification *)

(** What the configuration document holds for the conversational agent:
    a system prompt (the empty string when absent), the few-shot examples,
    each with a [user] and an [assistant] entry, and [max_messages]. *)
Definition configured (self : t) (system_prompt : value)
    (few_shot : list dict) (k : Z) : Prop :=
  ∃ cfg prompts memory : dict,
    BaseAgent.config (super self) = VDict cfg
    ∧ get_or cfg "prompts" (VDict ∅) = VDict prompts
    ∧ get_or prompts "system_prompt" (VStr "") = system_prompt
    ∧ get_or prompts "few_shot_examples" (VList []) = VList (VDict <$> few_shot)
    ∧ Forall (fun d => is_Some (d !! "user") ∧ is_Some (d !! "assistant")) few_shot
    ∧ get_or cfg "memory" (VDict ∅) = VDict memory
    ∧ get_or memory "max_messages" (VInt 5) = VInt k.

Definition example_pair (d : dict) : list message :=
  [Message "user" (get d "user"); Message "assistant" (get d "assistant")].

Definition history_pair (i : interaction) : list message :=
  [Message "user" (VStr (user i)); Message "assistant" (VStr (agent i))].

(** The message list in the order of the specification: system prompt when
    non-empty, example pairs, history pairs, context message when there is a
    context, current input. *)
Definition assembled (system_prompt : value) (few_shot : list dict)
    (entries : list interaction) (context : option string)
    (input_text : string) : list message :=
  (if truthy system_prompt then [Message "system" system_prompt] else [])
  ++ (few_shot ≫= example_pair)
  ++ (entries ≫= history_pair)
  ++ match context with
     | Some c => [Message "system" (VStr ("Contexto: " +:+ c))]
     | None => []
     end
  ++ [Message "user" (VStr input_text)].

(** The context that reaches the message list: a non-empty one. *)
Definition effective_context (context : option string) : option string :=
  if context_given context then context else None.

End WithBackend.
End ConversationalAgent.

(** ** agent.py: ClassifierAgent *)

(** The scikit-learn collaborator.  Estimators are objects updated in
    place: a fitting call returns the object as the call left it. *)
Class Sklearn := {
  Vectorizer : Type;
  Model : Type;
  Matrix : Type;
  (** [TfidfVectorizer(max_features=5000, ngram_range=(1, 2))] *)
  TfidfVectorizer : Vectorizer;
  (** [RandomForestClassifier(n_estimators=100, random_state=42)] *)
  RandomForestClassifier : Model;
  (** [train_test_split(texts, labels, test_size=0.2, random_state=42)] *)
  train_test_split : list value → list value →
    result (list value * list value * list value * list value);
  fit_transform : Vectorizer → list value → Vectorizer * result Matrix;
  transform : Vectorizer → list value → result Matrix;
  fit : Model → Matrix → list value → Model * result unit;
  predict : Model → Matrix → result (list value);
  predict_proba : Model → Matrix → result (list (list float));
  classification_report : list value → list value → result string;
  (** truth value of the objects, as [not obj] asks for it *)
  vectorizer_bool : Vectorizer → result bool;
  model_bool : Model → result bool;
  (** [list(set(labels))] *)
  unique : list value → result (list value);
  (** the f-string [Categoría: {prediction} (confianza: {confidence:.2%})] *)
  format_prediction : value → float → string
}.

Module ClassifierAgent.
Section WithSklearn.
Context `{Sklearn}.

Record t := Make {
  super : BaseAgent.t;
  model : option Model;
  vectorizer : option Vectorizer;
  classes : option (list value)
}.

Definition set_super (self : t) (b : BaseAgent.t) : t :=
  Make b (model self) (vectorizer self) (classes self).
Definition set_model (m : option Model) (self : t) : t :=
  Make (super self) m (vectorizer self) (classes self).
Definition set_vectorizer (v : option Vectorizer) (self : t) : t :=
  Make (super self) (model self) v (classes self).
Definition set_classes (c : option (list value)) (self : t) : t :=
  Make (super self) (model self) (vectorizer self) c.

Definition __init__ (w : OS.world) (config_path : string) : result t :=
  b ← BaseAgent.__init__ w config_path;
  Ok (Make b None None None).

Lemma classifier_init_super (w : OS.world) (config_path : string) (a : t) :
  __init__ w config_path = Ok a →
  BaseAgent.__init__ w config_path = Ok (super a).
Proof.
  unfold __init__. destruct (BaseAgent.__init__ w config_path) as [b|]; [|done].
  simpl. by intros [= <-].
Qed.

#[global] Instance agent_class : AgentClass t := {
  construct := __init__;
  base := super;
  with_base := set_super;
  base_with_base := fun _ _ => eq_refl;
  construct_base := classifier_init_super
}.

(** [not obj] for an attribute that is [None] or an estimator. *)
Definition py_not {A} (truth : A → result bool) (obj : option A) : result bool :=
  match obj with
  | None => Ok true
  | Some o => negb <$> truth o
  end.

(** [obj.method] on an attribute that may be [None]. *)
Definition deref {A} (attr_name : string) (obj : option A) : result A :=
  match obj with
  | Some o => Ok o
  | None => Raise (AttributeError attr_name)
  end.

(** [l[0]] *)
Definition first {A} (l : list A) : result A :=
  match l with
  | x :: _ => Ok x
  | [] => Raise (IndexError "list index out of range")
  end.

(** [max(l)] on floats: the first item that no later item exceeds. *)
Definition py_max (l : list float) : result float :=
  match l with
  | [] => Raise (ValueError "max() arg is an empty sequence")
  | x :: rest =>
      Ok (fold_left (fun best y => if PrimFloat.ltb best y then y else best) rest x)
  end.

Definition not_trained : string :=
  "El modelo no está entrenado. Ejecuta train() primero.".

(** The condition [not self.model or not self.vectorizer]. *)
Definition untrained (self : t) : result bool :=
  no_model ← py_not model_bool (model self);
  if no_model : bool then Ok true else py_not vectorizer_bool (vectorizer self).

Definition process (now input_text : string) : method t string :=
  guard ← (fun self => (self, untrained self));
  if guard : bool then mret not_trained
  else
    vec ← (fun self => (self, deref "transform" (vectorizer self)));
    X ← pure_ (transform vec [VStr input_text]);
    mdl ← (fun self => (self, deref "predict" (model self)));
    prediction ← pure_ (p ← predict mdl X; first p);
    confidence ← pure_ (p ← predict_proba mdl X; row ← first p; py_max row);
    let result := format_prediction prediction confidence in
    _ ← inherited (fun b => (BaseAgent.add_to_history b now input_text result, Ok tt));
    mret result.

Definition train (training_data : list value) : method t string :=
  texts ← pure_ (comprehension (fun item => subscript item "text") training_data);
  labels ← pure_ (comprehension (fun item => subscript item "label") training_data);
  cls ← pure_ (unique labels);
  _ ← assign (set_classes (Some cls));
  split ← pure_ (train_test_split texts labels);
  let '(X_train, X_test, y_train, y_test) := split in
  _ ← assign (set_vectorizer (Some TfidfVectorizer));
  X_train_vec ← (fun self =>
                   let '(v, r) := fit_transform TfidfVectorizer X_train in
                   (set_vectorizer (Some v) self, r));
  vec ← (fun self => (self, deref "transform" (vectorizer self)));
  X_test_vec ← pure_ (transform vec X_test);
  _ ← assign (set_model (Some RandomForestClassifier));
  _ ← (fun self =>
         let '(m, r) := fit RandomForestClassifier X_train_vec y_train in
         (set_model (Some m) self, r));
  mdl ← (fun self => (self, deref "predict" (model self)));
  y_pred ← pure_ (predict mdl X_test_vec);
  report ← pure_ (classification_report y_test y_pred);
  mret report.

(** The states an instance can be in: built by the constructor or by
    [load], then driven through its methods. *)
Inductive reachable : t → Prop :=
| reach_init w config_path a :
    __init__ w config_path = Ok a → reachable a
| reach_load w path config_path a :
    load w path config_path = Ok a → reachable a
| reach_train a training_data :
    reachable a → reachable (train training_data a).1
| reach_process a now input_text :
    reachable a → reachable (process now input_text a).1
| reach_base a b :
    reachable a → reachable (set_super a b).

(** The vectorizer is assigned before the model. *)
Definition vectorizer_first (self : t) : Prop :=
  vectorizer self = None → model self = None.

End WithSklearn.
End ClassifierAgent.

(** ** agent.py: CustomAgent *)

Module CustomAgent.

Record t := Make { super : BaseAgent.t }.

Definition __init__ (w : OS.world) (config_path : string) : result t :=
  b ← BaseAgent.__init__ w config_path; Ok (Make b).

Lemma custom_init_super (w : OS.world) (config_path : string) (a : t) :
  __init__ w config_path = Ok a →
  BaseAgent.__init__ w config_path = Ok (super a).
Proof.
  unfold __init__. destruct (BaseAgent.__init__ w config_path) as [b|]; [|done].
  simpl. by intros [= <-].
Qed.

#[global] Instance agent_class : AgentClass t := {
  construct := __init__;
  base := super;
  with_base := fun _ b => Make b;
  base_with_base := fun _ _ => eq_refl;
  construct_base := custom_init_super
}.

(** [process]; [hms] is [datetime.now().strftime('%H:%M:%S')]. *)
Definition process (now hms input_text : string) : method t string :=
  let response := "[" +:+ hms +:+ "] Echo: " +:+ input_text in
  _ ← inherited (fun b => (BaseAgent.add_to_history b now input_text response, Ok tt));
  mret response.

(** [train] only logs. *)
Definition train (training_data : list value) : method t unit := mret tt.

(** A session: [process] called on each turn in order; a turn is the two
    clock readings and the input. *)
Fixpoint process_all (turns : list (string * string * string))
    : method t (list string) :=
  match turns with
  | [] => mret []
  | (now, hms, input_text) :: rest =>
      response ← process now hms input_text;
      responses ← process_all rest;
      mret (response :: responses)
  end.

(** What one turn of a session gives: the answer and the history entry;
    a turn is the date, the time of day and the input. *)
Definition echo (turn : string * string * string) : string :=
  "[" +:+ turn.1.2 +:+ "] Echo: " +:+ turn.2.

Definition echo_entry (turn : string * string * string) : interaction :=
  Interaction turn.1.1 turn.2 (echo turn).

End CustomAgent.

(** ** agent.py: create_agent *)

(** [str.lower] on the ASCII letters, every other byte kept: a string of
    other characters never lowers to one of the ASCII keys compared
    with. *)
Definition lower_char (c : ascii) : ascii :=
  let n := nat_of_ascii c in
  if (65 <=? n)%nat && (n <=? 90)%nat then ascii_of_nat (n + 32) else c.

Fixpoint lower (s : string) : string :=
  match s with
  | EmptyString => EmptyString
  | String c rest => String (lower_char c) (lower rest)
  end.

Section Factory.
Context `{Backend} `{Sklearn}.

(** An instance of one of the three classes of the [agents] table. *)
Inductive any_agent :=
| Conversational (a : ConversationalAgent.t)
| Classifier (a : ClassifierAgent.t)
| Custom (a : CustomAgent.t).

Definition unsupported (agent_type : string) : exn :=
  ValueError ("Tipo de agente '" +:+ agent_type +:+ "' no soportado. "
              +:+ "Opciones: ['conversational', 'classifier', 'custom']").

Definition create_agent (agent_type : string) (w : OS.world)
    (config_path : string) : result any_agent :=
  let key := lower agent_type in
  if String.eqb key "conversational" then
    Conversational <$> ConversationalAgent.__init__ w config_path
  else if String.eqb key "classifier" then
    Classifier <$> ClassifierAgent.__init__ w config_path
  else if String.eqb key "custom" then
    Custom <$> CustomAgent.__init__ w config_path
  else Raise (unsupported agent_type).

End Factory.

(** ** The [random] module *)

(** The generator behind [random.seed] and [random.shuffle]: [randbelow g n]
    draws an integer below [n] and steps the generator. *)
Class Random := {
  rng : Type;
  seed : Z → rng;
  randbelow : rng → nat → nat * rng;
  randbelow_lt : ∀ g n, (0 < n)%nat → ((randbelow g n).1 < n)%nat
}.

(** [x[i], x[j] = x[j], x[i]] *)
Definition swap {A} (i j : nat) (x : list A) : list A :=
  match x !! i, x !! j with
  | Some a, Some b => <[j := a]> (<[i := b]> x)
  | _, _ => x
  end.

(** [random.shuffle]: for [i] from [len(x) - 1] down to [1], swap [x[i]]
    with [x[randbelow(i + 1)]]. *)
Fixpoint shuffle_from `{Random} {A} (i : nat) (g : rng) (x : list A) : list A :=
  match i with
  | O => x
  | S i' =>
      let '(j, g') := randbelow g (S i) in
      shuffle_from i' g' (swap i j x)
  end.

Definition shuffle `{Random} {A} (g : rng) (x : list A) : list A :=
  shuffle_from (length x - 1) g x.

(** ** Floats *)

(** [int(f)]: truncation toward zero. *)
Definition int_of_float (f : float) : result Z :=
  match Prim2SF f with
  | S754_zero _ => Ok 0
  | S754_finite s m e =>
      let magnitude := Z.shiftl (Z.pos m) e in
      Ok (if s then - magnitude else magnitude)
  | S754_infinity _ => Raise (OverflowError "cannot convert float infinity to integer")
  | S754_nan => Raise (ValueError "cannot convert float NaN to integer")
  end.

(** A float that is a NaN; a float that is a number (not a NaN, not an
    infinity). *)
Definition is_NaN (f : float) : Prop := Prim2SF f = S754_nan.

Definition is_number (f : float) : Prop :=
  match Prim2SF f with
  | S754_zero _ | S754_finite _ _ _ => True
  | S754_infinity _ | S754_nan => False
  end.

(** The float a list length converts to in [n * ratio] (lengths are below
    [2^63]). *)
Definition float_of_len (n : nat) : float :=
  PrimFloat.of_uint63 (Uint63.of_Z (Z.of_nat n)).

(** ** Characters *)

(** What Python's [str] methods need to know of a character: whether
    [isspace] and [isprintable] hold of it, and the three characters the
    code names.  The laws are those of the Unicode tables: the space is
    the one character that is both whitespace and printable. *)
Class Unicode := {
  char : Type;
  char_eq_dec :: EqDecision char;
  isspace : char → bool;
  isprintable : char → bool;
  space : char;
  newline : char;
  tab : char;
  isspace_space : isspace space = true;
  isprintable_space : isprintable space = true;
  isspace_newline : isspace newline = true;
  isspace_tab : isspace tab = true;
  printable_whitespace : ∀ c,
    isspace c = true → isprintable c = true → c = space
}.

Section Text.
Context `{Unicode}.

(** [text.split()]: the maximal runs of characters that are not
    whitespace; [word] is the run being read. *)
Fixpoint split_from (word text : list char) : list (list char) :=
  match text with
  | [] => match word with [] => [] | _ :: _ => [word] end
  | c :: rest =>
      if isspace c then
        match word with
        | [] => split_from [] rest
        | _ :: _ => word :: split_from [] rest
        end
      else split_from (word ++ [c]) rest
  end.

Definition split (text : list char) : list (list char) := split_from [] text.

(** [sep.join(words)] *)
Fixpoint join (sep : list char) (words : list (list char)) : list char :=
  match words with
  | [] => []
  | w :: rest =>
      match rest with
      | [] => w
      | _ :: _ => w ++ sep ++ join sep rest
      end
  end.

(** [text.lstrip()], [text.rstrip()], [text.strip()] *)
Fixpoint lstrip (text : list char) : list char :=
  match text with
  | [] => []
  | c :: rest => if isspace c then lstrip rest else text
  end.

Definition rstrip (text : list char) : list char :=
  reverse (lstrip (reverse text)).

Definition strip (text : list char) : list char := lstrip (rstrip text).

(** A word as [split] gives it: not empty, without whitespace. *)
Definition word (w : list char) : Prop :=
  w ≠ [] ∧ Forall (fun c => isspace c = false) w.

End Text.

(** ** data_processor.py *)

Module DataProcessor.

(** The dict literal built for [format_type == 'conversational']. *)
Definition conversational_item (item : dict) : dict :=
  <["user" := py_or (get item "user")
                (py_or (get item "input")
                   (py_or (get item "question") (VStr "")))]>
  (<["assistant" := py_or (get item "assistant")
                      (py_or (get item "output")
                         (py_or (get item "answer") (VStr "")))]>
  (<["context" := py_or (get item "context") (VStr "")]> ∅)).

(** The dict literal built for [format_type == 'classifier']. *)
Definition classifier_item (item : dict) : dict :=
  <["text" := py_or (get item "text")
                (py_or (get item "input")
                   (py_or (get item "user") (VStr "")))]>
  (<["label" := py_or (get item "label")
                  (py_or (get item "category")
                     (py_or (get item "class") (VStr "")))]> ∅).

(** The body of the [if / elif / else] that computes [processed_item]. *)
Definition processed_item (format_type : string) (item : value) : result dict :=
  if String.eqb format_type "conversational" then
    d ← as_dict "get" item; Ok (conversational_item d)
  else if String.eqb format_type "classifier" then
    d ← as_dict "get" item; Ok (classifier_item d)
  else
    as_dict "values" item.

(** [any(v for v in processed_item.values() if v)] *)
Definition has_content (p : dict) : bool :=
  existsb truthy (snd <$> map_to_list p).

(** The [for item in data] loop, [processed_data] being the accumulator. *)
Fixpoint prepare_loop (format_type : string) (data : list value)
    (processed_data : list value) : result (list value) :=
  match data with
  | [] => Ok processed_data
  | item :: rest =>
      p ← processed_item format_type item;
      prepare_loop format_type rest
        (if has_content p then processed_data ++ [VDict p] else processed_data)
  end.

Definition prepare_data (data : list value) (format_type : string)
    : result (list value) :=
  prepare_loop format_type data [].

(** *** Reading of the specification *)

(** Alias resolution as the specification words it: the value of the first
    alias, in priority order, whose value is truthy; the empty string when
    there is none. *)
Definition resolve_alias (item : dict) (aliases : list string) : value :=
  match List.find (fun k => truthy (get item k)) aliases with
  | Some k => get item k
  | None => VStr ""
  end.

Definition conversational_aliases : list (string * list string) :=
  [("user", ["user"; "input"; "question"]);
   ("assistant", ["assistant"; "output"; "answer"]);
   ("context", ["context"])].

Definition classifier_aliases : list (string * list string) :=
  [("text", ["text"; "input"; "user"]);
   ("label", ["label"; "category"; "class"])].

(** The normalized record: one field per row of the alias table. *)
Definition normalized (table : list (string * list string)) (item : dict) : dict :=
  list_to_map ((fun row => (row.1, resolve_alias item row.2)) <$> table).

(** Every field of the record is empty/falsy. *)
Definition every_field_falsy (r : dict) : Prop :=
  map_Forall (fun _ v => truthy v = false) r.

#[export] Instance every_field_falsy_dec r : Decision (every_field_falsy r).
Proof. unfold every_field_falsy. apply _. Defined.

(** *** [clean_text] *)

Section WithUnicode.
Context `{Unicode}.

(** [char.isprintable() or char in '\n\t'] *)
Definition kept (c : char) : bool :=
  isprintable c || bool_decide (c = newline) || bool_decide (c = tab).

Definition clean_text (text : list char) : list char :=
  match text with
  | [] => []
  | _ :: _ =>
      let text := join [space] (split text) in
      let text := filter (fun c => kept c) text in
      strip text
  end.

End WithUnicode.

(** *** Files *)

(** [load_json_file]: a list is returned as it is, an object as a
    one-element list, anything else as the empty list. *)
Definition load_json_file (w : OS.world) (file_path : string)
    : result (list value) :=
  data ← OS.read_document w file_path;
  match data with
  | VList l => Ok l
  | VDict d => Ok [VDict d]
  | _ => Ok []
  end.

Definition save_processed_data (data : list value) (output_path : string)
    (w : OS.world) : OS.world * result unit :=
  match OS.makedirs w (OS.dirname output_path) with
  | (w', Raise e) => (w', Raise e)
  | (w', Ok _) => OS.write_document w' output_path (VList data)
  end.

(** *** [split_data] *)

Section WithRandom.
Context `{Random}.

(** [abs(total - 1.0) > 0.01] *)
Definition ratios_off (total : float) : bool :=
  PrimFloat.ltb 0.01 (PrimFloat.abs (total - 1.0)).

Definition split_data (data : list value)
    (train_ratio val_ratio test_ratio : float) (random_seed : Z)
    : result (list value * list value * list value) :=
  let total := (train_ratio + val_ratio + test_ratio)%float in
  if ratios_off total then Raise (RatioError total)
  else
    let shuffled_data := shuffle (seed random_seed) data in
    let n := length shuffled_data in
    train_end ← int_of_float (float_of_len n * train_ratio);
    val_len ← int_of_float (float_of_len n * val_ratio);
    let val_end := train_end + val_len in
    let train_data := py_slice None (Some train_end) shuffled_data in
    let val_data := py_slice (Some train_end) (Some val_end) shuffled_data in
    let test_data := py_slice (Some val_end) None shuffled_data in
    Ok (train_data, val_data, test_data).

End WithRandom.

End DataProcessor.

(** ** Sample collaborators, used in the examples *)

Module Sample.

(** A backend whose OpenAI client answers and whose Anthropic client
    fails. *)
Definition backend : Backend := {|
  Client := unit;
  new_client := fun _ => Ok tt;
  create := fun _ provider _ messages _ =>
    if String.eqb provider "openai" then Answer "Hola"
    else Failed "Connection error."
|}.

Definition conversational_config (provider : string) (k : Z) : value :=
  VDict {[
    "model" := VDict {[ "provider" := VStr provider ]};
    "prompts" := VDict {[
      "system_prompt" := VStr "Eres un asistente.";
      "few_shot_examples" := VList [VDict {[ "user" := VStr "Hola";
                                             "assistant" := VStr "Buenas" ]}] ]};
    "memory" := VDict {[ "max_messages" := VInt k ]} ]}.

Definition past : list interaction :=
  [Interaction "t1" "uno" "one"; Interaction "t2" "dos" "two";
   Interaction "t3" "tres" "three"].

Definition conversational (provider : string) (k : Z)
    (history : list interaction) : @ConversationalAgent.t backend :=
  ConversationalAgent.Make (H := backend)
    (BaseAgent.Make (conversational_config provider k) (VStr "Agent")
       (VStr "1.0.0") history)
    (VDict {[ "provider" := VStr provider ]}) (VStr provider)
    (VStr "gpt-3.5-turbo") (Some tt).

(** A learner in the manner of scikit-learn: estimators carry a fitted
    flag, an unfitted forest has no [estimators_] to take the length of, and
    an unfitted vectorizer cannot transform. *)
Definition sklearn : Sklearn := {|
  Vectorizer := bool;
  Model := bool;
  Matrix := list value;
  TfidfVectorizer := false;
  RandomForestClassifier := false;
  train_test_split := fun texts labels =>
    match texts with
    | [] => Raise (ValueError "With n_samples=0 the resulting train set will be empty.")
    | _ => Ok (texts, take 1 texts, labels, take 1 labels)
    end;
  fit_transform := fun _ docs =>
    match docs with
    | [] => (false, Raise (ValueError "empty vocabulary"))
    | _ => (true, Ok docs)
    end;
  transform := fun fitted docs =>
    if fitted : bool then Ok docs else Raise (ExternalError "NotFittedError");
  fit := fun _ _ _ => (true, Ok tt);
  predict := fun fitted X =>
    if fitted : bool then Ok ((fun _ => VStr "saludo") <$> X)
    else Raise (ExternalError "NotFittedError");
  predict_proba := fun fitted X =>
    if fitted : bool then Ok ((fun _ => [0.25; 0.75]%float) <$> X)
    else Raise (ExternalError "NotFittedError");
  classification_report := fun _ _ => Ok "precision recall f1-score support";
  vectorizer_bool := fun _ => Ok true;
  model_bool := fun fitted =>
    if fitted : bool then Ok true else Raise (AttributeError "estimators_");
  unique := fun labels => Ok labels;
  format_prediction := fun _ _ => "Categoría: saludo (confianza: 75.00%)"
|}.

(** The same learner with the label check of scikit-learn's classifiers:
    [fit] raises on a label that is [None] and leaves the forest unfitted. *)
Definition unlabelled (labels : list value) : bool :=
  existsb (fun label => match label with VNone => true | _ => false end) labels.

Definition strict_sklearn : Sklearn := {|
  Vectorizer := bool;
  Model := bool;
  Matrix := list value;
  TfidfVectorizer := false;
  RandomForestClassifier := false;
  train_test_split := @train_test_split sklearn;
  fit_transform := @fit_transform sklearn;
  transform := @transform sklearn;
  fit := fun forest _ labels =>
    if unlabelled labels
    then (forest, Raise (ValueError "Unknown label type: unknown"))
    else (true, Ok tt);
  predict := @predict sklearn;
  predict_proba := @predict_proba sklearn;
  classification_report := @classification_report sklearn;
  vectorizer_bool := @vectorizer_bool sklearn;
  model_bool := @model_bool sklearn;
  unique := @unique sklearn;
  format_prediction := @format_prediction sklearn
|}.

(** Two records whose labels are missing. *)
Definition unlabelled_data : list value :=
  [VDict {[ "text" := VStr "hola"; "label" := VNone ]};
   VDict {[ "text" := VStr "adios"; "label" := VNone ]}].

(** A machine with an empty disk. *)
Definition empty_world : OS.world := OS.World ∅ [].

(** A machine whose working directory holds [config/agent_config.yaml]. *)
Definition live_config : value :=
  VDict {[ "agent" := VDict {[ "name" := VStr "Mira";
                               "version" := VStr "2.0.0" ]} ]}.

Definition configured_world : OS.world :=
  OS.World {[ ["app"] := OS.Dir;
              ["app"; "config"] := OS.Dir;
              ["app"; "config"; "agent_config.yaml"] := OS.File live_config ]}
    ["app"].

(** A linear congruential generator. *)
Definition lcg_next (g : Z) : Z := (g * 1103515245 + 12345) `mod` 2147483648.

Definition lcg_randbelow (g : Z) (n : nat) : nat * Z :=
  (Z.to_nat (lcg_next g `mod` Z.of_nat n), lcg_next g).

Lemma lcg_randbelow_lt (g : Z) (n : nat) :
  (0 < n)%nat → ((lcg_randbelow g n).1 < n)%nat.
Proof.
  intros Hn. unfold lcg_randbelow. simpl.
  pose proof (Z.mod_pos_bound (lcg_next g) (Z.of_nat n)). lia.
Qed.

Definition random : Random := {|
  rng := Z;
  seed := fun a => a;
  randbelow := lcg_randbelow;
  randbelow_lt := lcg_randbelow_lt
|}.

(** The hundred records of the repository's [test_split_data]. *)
Definition hundred : list value :=
  (fun i => VDict {[ "id" := VInt i ]}) <$> seqZ 0 100.

(** A call that fails while its counter is below two, and counts. *)
Definition flaky : method nat string :=
  fun calls =>
    (Datatypes.S calls,
     if (calls <? 2)%nat then Raise (ExternalError "timeout") else Ok "done").

(** The ASCII characters: whitespace is the range from tab to carriage
    return, the four separators below the space, and the space; the
    printable characters run from the space to the tilde. *)
Definition ascii_isspace (c : ascii) : bool :=
  let n := nat_of_ascii c in
  ((9 <=? n) && (n <=? 13) || (28 <=? n) && (n <=? 32))%nat.

Definition ascii_isprintable (c : ascii) : bool :=
  let n := nat_of_ascii c in ((32 <=? n) && (n <=? 126))%nat.

Lemma ascii_printable_whitespace (c : ascii) :
  ascii_isspace c = true → ascii_isprintable c = true → c = " "%char.
Proof.
  destruct c as [[] [] [] [] [] [] [] []]; vm_compute; intros; done.
Qed.

Definition ascii_text : Unicode := {|
  char := ascii;
  isspace := ascii_isspace;
  isprintable := ascii_isprintable;
  space := " "%char;
  newline := "010"%char;
  tab := "009"%char;
  isspace_space := eq_refl;
  isprintable_space := eq_refl;
  isspace_newline := eq_refl;
  isspace_tab := eq_refl;
  printable_whitespace := ascii_printable_whitespace
|}.

End Sample.

(** ** utils.py *)

(** Text is the sequence of its characters; [retry_on_error] wraps a
    function with effects on some state. *)
Module Utils.

(** [truncate_text] *)
Definition truncate_text {A} (text : list A) (max_length : Z)
    (suffix : list A) : list A :=
  if Z.of_nat (length text) <=? max_length then text
  else py_slice None (Some (max_length - Z.of_nat (length suffix))) text
       ++ suffix.

(** The characters the pattern of [re.sub] removes, as code points: less
    than, greater than, colon, double quote, slash, backslash, bar, question
    mark and star. *)
Definition invalid_chars : list N := [60; 62; 58; 34; 47; 92; 124; 63; 42]%N.

(** [sanitize_filename] on a name given by its code points. *)
Definition sanitize_filename (filename : list N) : list N :=
  let filename := filter (fun c => c ∉ invalid_chars) filename in
  if (255 <? length filename)%nat then py_slice None (Some 255) filename
  else filename.

(** The loop of the wrapper [retry_on_error] builds, [remaining] attempts
    being left: the first success is returned, the exception of the last
    attempt is raised again, and the loop that never ran returns [None].
    The pause between attempts is left out. *)
Fixpoint retry_loop {S A} (remaining : nat) (func : method S A)
    : method S (option A) :=
  fun s =>
    match remaining with
    | O => (s, Ok None)
    | Datatypes.S k =>
        match func s with
        | (s', Ok a) => (s', Ok (Some a))
        | (s', Raise e) =>
            match k with
            | O => (s', Raise e)
            | _ => retry_loop k func s'
            end
        end
    end.

Definition retry_on_error {S A} (max_retries : Z) (func : method S A)
    : method S (option A) :=
  retry_loop (Z.to_nat max_retries) func.

(** The state after [k] calls of [func] that all raised, if they did. *)
Fixpoint after_failures {S A} (k : nat) (func : method S A) (s : S)
    : option S :=
  match k with
  | O => Some s
  | Datatypes.S k' =>
      match func s with
      | (s', Raise _) => after_failures k' func s'
      | (_, Ok _) => None
      end
  end.

End Utils.

(** * Part II: properties *)

(** ** Records: alias resolution and filtering *)

Section PrepareData.
Import DataProcessor.

Lemma has_content_spec (p : dict) :
  has_content p = true ↔ ¬ every_field_falsy p.
Proof.
  unfold has_content, every_field_falsy.
  rewrite existsb_exists. split.
  - intros (v & Hin & Hv) Hall.
    apply list_elem_of_In, list_elem_of_fmap in Hin as ([k v'] & -> & Hkv).
    apply elem_of_map_to_list in Hkv. apply Hall in Hkv. simpl in *. congruence.
  - intros Hn. apply map_not_Forall in Hn; [|apply _].
    destruct Hn as (k & v & Hkv & Hv). exists v. split.
    + apply list_elem_of_In, list_elem_of_fmap. exists (k, v). split; [done|].
      by apply elem_of_map_to_list.
    + by destruct (truthy v).
Qed.

Lemma has_content_decide (p : dict) :
  has_content p = bool_decide (¬ every_field_falsy p).
Proof.
  destruct (has_content p) eqn:E; symmetry.
  - apply bool_decide_eq_true, has_content_spec, E.
  - apply bool_decide_eq_false. rewrite <- has_content_spec. congruence.
Qed.

Lemma resolve_alias_cons (item : dict) (a : string) (rest : list string) :
  resolve_alias item (a :: rest) = py_or (get item a)
    (resolve_alias item rest).
Proof.
  unfold resolve_alias, py_or. simpl. by destruct (truthy (get item a)).
Qed.

Lemma conversational_item_normalized (item : dict) :
  conversational_item item = normalized conversational_aliases item.
Proof.
  unfold normalized, conversational_aliases, conversational_item. simpl.
  by rewrite !resolve_alias_cons.
Qed.

Lemma classifier_item_normalized (item : dict) :
  classifier_item item = normalized classifier_aliases item.
Proof.
  unfold normalized, classifier_aliases, classifier_item. simpl.
  by rewrite !resolve_alias_cons.
Qed.

(** The loop on dict records: each record is rewritten by [f] and kept when
    some field is truthy. *)
Lemma prepare_loop_dicts (fmt : string) (f : dict → dict) (records : list dict) :
  (∀ d, processed_item fmt (VDict d) = Ok (f d)) →
  ∀ acc, prepare_loop fmt (VDict <$> records) acc
         = Ok (acc ++ (VDict <$> filter (fun r => ¬ every_field_falsy r) (f <$> records))).
Proof.
  intros Hf. induction records as [|d records IH]; intros acc; simpl.
  - by rewrite app_nil_r.
  - rewrite Hf. simpl. rewrite IH, has_content_decide, filter_cons.
    case_bool_decide; case_decide; try done.
    by rewrite <- app_assoc.
Qed.

(** C5: on dict records, [prepare_data] returns, in input order, the
    normalized records (each field resolved through its aliases in priority
    order) except exactly those whose every field is falsy; the sample record
    with [input] and [answer] becomes [user] / [assistant] / empty [context]. *)
Theorem prepare_data_normalizes_and_filters (records : list dict) :
  prepare_data (VDict <$> records) "conversational"
    = Ok (VDict <$> filter (fun r => ¬ every_field_falsy r)
                      (normalized conversational_aliases <$> records))
  ∧ prepare_data (VDict <$> records) "classifier"
    = Ok (VDict <$> filter (fun r => ¬ every_field_falsy r)
                      (normalized classifier_aliases <$> records))
  ∧ prepare_data
      [VDict {[ "input" := VStr "hi"; "answer" := VStr "hello" ]}]
      "conversational"
    = Ok [VDict {[ "user" := VStr "hi"; "assistant" := VStr "hello";
                   "context" := VStr "" ]}].
Proof.
  split; [|split].
  - unfold prepare_data.
    rewrite (prepare_loop_dicts _ (normalized conversational_aliases)); [done|].
    intros d. unfold processed_item. simpl.
    by rewrite conversational_item_normalized.
  - unfold prepare_data.
    rewrite (prepare_loop_dicts _ (normalized classifier_aliases)); [done|].
    intros d. unfold processed_item. simpl.
    by rewrite classifier_item_normalized.
  - vm_compute. reflexivity.
Qed.

Lemma resolve_alias_first_truthy (item : dict) (pre : list string) (k : string)
    (post : list string) (v : value) :
  Forall (fun a => truthy (get item a) = false) pre →
  item !! k = Some v → truthy v = true →
  resolve_alias item (pre ++ k :: post) = v.
Proof.
  intros Hpre Hk Hv. induction Hpre as [|a pre Ha _ IH]; simpl.
  - rewrite resolve_alias_cons. unfold py_or, get. rewrite Hk. simpl.
    by rewrite Hv.
  - rewrite resolve_alias_cons. unfold py_or. by rewrite Ha.
Qed.

Lemma normalized_lookup (table : list (string * list string)) (item : dict)
    (field : string) (aliases : list string) :
  NoDup table.*1 → (field, aliases) ∈ table →
  normalized table item !! field = Some (resolve_alias item aliases).
Proof.
  intros Hnd Hin. unfold normalized.
  apply elem_of_list_to_map_1.
  - by rewrite <- list_fmap_compose.
  - apply list_elem_of_fmap. by exists (field, aliases).
Qed.

(** C10: in both alias tables a falsy value, present or not, never stops
    the fallback: the normalized field is the value of the first alias that
    holds a truthy value.  The two sample records resolve [user] to [hi] and
    [text] to [x]. *)
Theorem falsy_alias_does_not_shadow :
  (∀ (format_type : string) (table : list (string * list string))
     (item : dict) (field : string) (pre : list string) (k : string)
     (post : list string) (v : value),
     (format_type, table) ∈ [("conversational", conversational_aliases);
                             ("classifier", classifier_aliases)] →
     (field, pre ++ k :: post) ∈ table →
     Forall (fun a => truthy (get item a) = false) pre →
     item !! k = Some v → truthy v = true →
     ∃ r, processed_item format_type (VDict item) = Ok r
          ∧ r !! field = Some v)
  ∧ prepare_data [VDict {[ "user" := VStr ""; "input" := VStr "hi" ]}]
      "conversational"
    = Ok [VDict {[ "user" := VStr "hi"; "assistant" := VStr "";
                   "context" := VStr "" ]}]
  ∧ prepare_data [VDict {[ "text" := VStr ""; "input" := VStr "x" ]}]
      "classifier"
    = Ok [VDict {[ "text" := VStr "x"; "label" := VStr "" ]}].
Proof.
  split; [|split; vm_compute; reflexivity].
  intros fmt table item field pre k post v Hfmt Hrow Hpre Hk Hv.
  assert (Hnd : NoDup table.*1 ∧
                processed_item fmt (VDict item) = Ok (normalized table item)).
  { apply elem_of_cons in Hfmt as [[= -> ->]|Hfmt].
    - split; [by apply (bool_decide_unpack _)|].
      unfold processed_item; simpl. by rewrite conversational_item_normalized.
    - apply list_elem_of_singleton in Hfmt as [= -> ->].
      split; [by apply (bool_decide_unpack _)|].
      unfold processed_item; simpl. by rewrite classifier_item_normalized. }
  destruct Hnd as [Hnd Hp]. eexists. split; [exact Hp|].
  rewrite (normalized_lookup _ _ _ _ Hnd Hrow).
  f_equal. by apply resolve_alias_first_truthy.
Qed.

Lemma falsy_alias_does_not_shadow_witness :
  ∃ r, processed_item "conversational"
         (VDict {[ "user" := VStr ""; "input" := VStr "hi" ]}) = Ok r
       ∧ r !! "user" = Some (VStr "hi").
Proof.
  apply (proj1 falsy_alias_does_not_shadow "conversational"
           conversational_aliases _ "user" ["user"] "input" ["question"]).
  - apply list_elem_of_here.
  - apply list_elem_of_here.
  - repeat constructor.
  - reflexivity.
  - reflexivity.
Defined.

End PrepareData.

(** ** History window *)

Section History.
Import BaseAgent.

Lemma slice_from_negative {A} (n : Z) (l : list A) :
  1 ≤ n → py_slice (Some (- n)) None l = last_n (Z.to_nat n) l.
Proof.
  intros Hn. unfold py_slice, last_n, slice_bound. simpl.
  rewrite (proj2 (Z.ltb_lt (- n) 0)) by lia.
  rewrite (proj2 (Z.ltb_ge (Z.of_nat (length l)) 0)) by lia.
  rewrite Z.min_id.
  replace (Z.to_nat (Z.max (- n + Z.of_nat (length l)) 0))
    with (length l - Z.to_nat n)%nat by lia.
  apply take_ge. rewrite length_drop. lia.
Qed.

Lemma last_n_length {A} (n : nat) (l : list A) :
  length (last_n n l) = (n `min` length l)%nat.
Proof. unfold last_n. rewrite length_drop. lia. Qed.

Lemma last_n_suffix {A} (n : nat) (l : list A) : last_n n l `suffix_of` l.
Proof. unfold last_n. apply suffix_drop. Qed.

Lemma get_history_positive (self : t) (n : Z) :
  1 ≤ n →
  get_history self (VInt n) = (self, Ok (last_n (Z.to_nat n) (history self))).
Proof.
  intros Hn. unfold get_history. simpl.
  destruct (Z.eqb_spec n 0) as [->|_]; [lia|]. simpl.
  by rewrite slice_from_negative.
Qed.

(** C4, amended to positive limits: [get_history(limit=n)] with [n >= 1]
    returns the last [n] entries, which are all the entries when fewer than
    [n] exist; without a limit it returns every entry; the agent, history
    included, is the same after the call. *)
Theorem get_history_returns_last_entries (self : t) (n : Z) :
  1 ≤ n →
  get_history self (VInt n) = (self, Ok (last_n (Z.to_nat n) (history self)))
  ∧ (length (history self) ≤ Z.to_nat n →
     last_n (Z.to_nat n) (history self) = history self)%nat
  ∧ length (last_n (Z.to_nat n) (history self))
    = (Z.to_nat n `min` length (history self))%nat
  ∧ last_n (Z.to_nat n) (history self) `suffix_of` history self
  ∧ get_history self VNone = (self, Ok (history self)).
Proof.
  intros Hn. split; [by apply get_history_positive|].
  split; [|split; [apply last_n_length|split; [apply last_n_suffix|done]]].
  intros Hlen. unfold last_n.
  by replace (length (history self) - Z.to_nat n)%nat with 0%nat by lia.
Qed.

Lemma get_history_returns_last_entries_witness :
  let self := Make (VDict ∅) (VStr "Agent") (VStr "1.0.0")
                [Interaction "t1" "a" "b"; Interaction "t2" "c" "d";
                 Interaction "t3" "e" "f"] in
  get_history self (VInt 2)
  = (self, Ok [Interaction "t2" "c" "d"; Interaction "t3" "e" "f"]).
Proof.
  intros self.
  exact (proj1 (get_history_returns_last_entries self 2 ltac:(lia))).
Defined.

(** The claim as first stated, for every integer limit, fails at [0]: the
    whole history comes back, not its last zero entries. *)
Lemma get_history_limit_zero_counterexample :
  let self := Make (VDict ∅) (VStr "Agent") (VStr "1.0.0")
                [Interaction "t1" "a" "b"] in
  get_history self (VInt 0) = (self, Ok [Interaction "t1" "a" "b"])
  ∧ last_n (Z.to_nat 0) (history self) = [].
Proof. split; reflexivity. Qed.

End History.

(** ** Message assembly *)

Section Messages.
Context `{Backend}.
Import ConversationalAgent.

Lemma append_examples_dicts (few_shot : list dict) (messages : list message) :
  Forall (fun d => is_Some (d !! "user") ∧ is_Some (d !! "assistant")) few_shot →
  append_examples (VDict <$> few_shot) messages
  = Ok (messages ++ (few_shot ≫= example_pair)).
Proof.
  intros Hwf. revert messages.
  induction Hwf as [|d few_shot [[u Hu] [a Ha]] _ IH]; intros messages; simpl.
  - by rewrite app_nil_r.
  - rewrite Hu, Ha. simpl. rewrite IH, <- app_assoc.
    unfold example_pair, get. by rewrite Hu, Ha.
Qed.

Lemma append_history_pairs (entries : list interaction) (messages : list message) :
  append_history entries messages = messages ++ (entries ≫= history_pair).
Proof.
  revert messages. induction entries as [|i entries IH]; intros messages; simpl.
  - by rewrite app_nil_r.
  - by rewrite IH, <- app_assoc.
Qed.

(** Message assembly for a well-formed configuration, whatever the window
    [get_history] returns. *)
Lemma build_messages_assembled (self : t) (system_prompt : value)
    (few_shot : list dict) (k : Z) (recent : list interaction)
    (input_text : string) (context : option string) :
  configured self system_prompt few_shot k →
  BaseAgent.get_history (super self) (VInt k) = (super self, Ok recent) →
  _build_messages input_text context self
  = (self, Ok (assembled system_prompt few_shot recent
                 (effective_context context) input_text)).
Proof.
  intros (cfg & prompts & memory & Hcfg & Hp & Hsp & Hfs & Hwf & Hm & Hk) Hh.
  unfold _build_messages, mbind, method_bind, attr, pure_, inherited. simpl.
  unfold BaseAgent.lookup2, py_get. rewrite Hcfg. simpl.
  rewrite Hp. simpl. rewrite Hsp, Hfs. simpl.
  rewrite (append_examples_dicts _ _ Hwf). rewrite Hm. simpl. rewrite Hk, Hh.
  destruct self as [b mc pr mn cl]. simpl.
  unfold mret, method_ret, assembled, effective_context.
  rewrite append_history_pairs. f_equal. f_equal.
  destruct (truthy system_prompt), (context_given context) eqn:Hc; simpl;
    rewrite <- ?app_assoc; try done;
    destruct context; simpl in *; done.
Qed.

End Messages.

Section MessageWindow.
Import ConversationalAgent.

Lemma sample_configured (provider : string) (k : Z) (h : list interaction) :
  configured (H := Sample.backend) (Sample.conversational provider k h)
    (VStr "Eres un asistente.")
    [{[ "user" := VStr "Hola"; "assistant" := VStr "Buenas" ]}] k.
Proof.
  eexists _, _, _. split; [reflexivity|].
  split; [reflexivity|]. split; [reflexivity|]. split; [reflexivity|].
  split; [|split; reflexivity].
  constructor; [|constructor]. split; eexists; reflexivity.
Qed.

(** C1, amended to [max_messages >= 1] and to a non-empty context: with a
    history longer than [k], the assembled list is the system prompt (when
    non-empty), the example pairs in configured order, the pairs of the [k]
    most recent history entries, oldest first, the context message (when a
    non-empty context is given) and the current input as last [user]
    message. *)
Theorem build_messages_recent_window `{Backend} (self : t)
    (system_prompt : value) (few_shot : list dict) (k : Z)
    (input_text : string) (context : option string) :
  configured self system_prompt few_shot k →
  1 ≤ k →
  (Z.to_nat k < length (BaseAgent.history (super self)))%nat →
  let recent := last_n (Z.to_nat k) (BaseAgent.history (super self)) in
  _build_messages input_text context self
  = (self, Ok (assembled system_prompt few_shot recent
                 (effective_context context) input_text))
  ∧ length recent = Z.to_nat k
  ∧ recent `suffix_of` BaseAgent.history (super self).
Proof.
  intros Hcfg Hk Hlen recent. split; [|split].
  - apply (build_messages_assembled _ _ _ k); [done|].
    by apply get_history_positive.
  - unfold recent. rewrite last_n_length. lia.
  - apply last_n_suffix.
Qed.

Lemma build_messages_recent_window_witness :
  _build_messages (H := Sample.backend) "cuatro" (Some "horario")
    (Sample.conversational "openai" 2 Sample.past)
  = (Sample.conversational "openai" 2 Sample.past,
     Ok [Message "system" (VStr "Eres un asistente.");
         Message "user" (VStr "Hola"); Message "assistant" (VStr "Buenas");
         Message "user" (VStr "dos"); Message "assistant" (VStr "two");
         Message "user" (VStr "tres"); Message "assistant" (VStr "three");
         Message "system" (VStr "Contexto: horario");
         Message "user" (VStr "cuatro")]).
Proof.
  exact (proj1 (build_messages_recent_window (H := Sample.backend)
                  (Sample.conversational "openai" 2 Sample.past) _ _ 2
                  "cuatro" (Some "horario")
                  (sample_configured "openai" 2 Sample.past)
                  ltac:(lia) ltac:(simpl; lia))).
Defined.

(** The claim as first stated fails for [max_messages = 0]: a one-entry
    history is longer than [0], and its pair is in the assembled list. *)
Lemma build_messages_zero_window_counterexample :
  let self := Sample.conversational "openai" 0 [Interaction "t1" "uno" "one"] in
  configured (H := Sample.backend) self (VStr "Eres un asistente.")
    [{[ "user" := VStr "Hola"; "assistant" := VStr "Buenas" ]}] 0
  ∧ (0 < length (BaseAgent.history (super self)))%nat
  ∧ _build_messages "dos" None self
    = (self, Ok [Message "system" (VStr "Eres un asistente.");
                 Message "user" (VStr "Hola"); Message "assistant" (VStr "Buenas");
                 Message "user" (VStr "uno"); Message "assistant" (VStr "one");
                 Message "user" (VStr "dos")])
  ∧ assembled (VStr "Eres un asistente.")
      [{[ "user" := VStr "Hola"; "assistant" := VStr "Buenas" ]}]
      (last_n (Z.to_nat 0) (BaseAgent.history (super self))) None "dos"
    = [Message "system" (VStr "Eres un asistente.");
       Message "user" (VStr "Hola"); Message "assistant" (VStr "Buenas");
       Message "user" (VStr "dos")]
  ∧ _build_messages "dos" None self
    ≠ (self, Ok (assembled (VStr "Eres un asistente.")
                   [{[ "user" := VStr "Hola"; "assistant" := VStr "Buenas" ]}]
                   (last_n (Z.to_nat 0) (BaseAgent.history (super self)))
                   None "dos")).
Proof.
  intros self. split; [apply sample_configured|].
  split; [simpl; lia|]. split; [vm_compute; reflexivity|].
  split; [vm_compute; reflexivity|].
  vm_compute. intros Heq. discriminate Heq.
Qed.

(** C9: a zero limit is an unset limit: [get_history(limit=0)] returns what
    [get_history()] returns, the entire history; so with
    [max_messages = 0] the assembled list carries the pair of every history
    entry. *)
Theorem zero_limit_returns_entire_history `{Backend} (b : BaseAgent.t)
    (self : t) (system_prompt : value) (few_shot : list dict)
    (input_text : string) (context : option string) :
  BaseAgent.get_history b (VInt 0) = BaseAgent.get_history b VNone
  ∧ BaseAgent.get_history b (VInt 0) = (b, Ok (BaseAgent.history b))
  ∧ (configured self system_prompt few_shot 0 →
     _build_messages input_text context self
     = (self, Ok (assembled system_prompt few_shot
                    (BaseAgent.history (super self))
                    (effective_context context) input_text))).
Proof.
  split; [reflexivity|]. split; [reflexivity|].
  intros Hcfg. by apply (build_messages_assembled _ _ _ 0).
Qed.

Lemma zero_limit_returns_entire_history_witness :
  _build_messages (H := Sample.backend) "cuatro" None
    (Sample.conversational "openai" 0 Sample.past)
  = (Sample.conversational "openai" 0 Sample.past,
     Ok [Message "system" (VStr "Eres un asistente.");
         Message "user" (VStr "Hola"); Message "assistant" (VStr "Buenas");
         Message "user" (VStr "uno"); Message "assistant" (VStr "one");
         Message "user" (VStr "dos"); Message "assistant" (VStr "two");
         Message "user" (VStr "tres"); Message "assistant" (VStr "three");
         Message "user" (VStr "cuatro")]).
Proof.
  exact (proj2 (proj2 (zero_limit_returns_entire_history (H := Sample.backend)
                         (BaseAgent.Make VNone VNone VNone [])
                         (Sample.conversational "openai" 0 Sample.past) _ _
                         "cuatro" None))
           (sample_configured "openai" 0 Sample.past)).
Defined.

End MessageWindow.

(** ** One conversational turn *)

Section Process.
Import ConversationalAgent.

(** C6: without a client [process] returns the not-configured text and
    leaves the agent as it was.  With a client, once the messages and the
    parameters are assembled, the provider call decides: an answer is
    returned and appended to the history as one interaction, made of the
    input and the answer; a failure is returned as an error text, nothing is
    raised and the agent is left as it was. *)
Theorem process_appends_only_on_success `{Backend} (self : t)
    (now input_text : string) (context : option string) (kwargs : dict) :
  (client self = None →
   process now input_text context kwargs self = (self, Ok not_configured))
  ∧ (∀ (c : Client) (p : string) (messages : list message) (params : dict),
       client self = Some c →
       provider self = VStr p → p ∈ ["openai"; "anthropic"] →
       _build_messages input_text context self = (self, Ok messages) →
       _get_generation_params kwargs self = (self, Ok params) →
       match create c p (model_name self) messages params with
       | Answer answer =>
           ∃ self',
             process now input_text context kwargs self = (self', Ok answer)
             ∧ BaseAgent.history (super self')
               = BaseAgent.history (super self)
                 ++ [Interaction now input_text answer]
             ∧ self' = set_super self
                         (BaseAgent.add_to_history (super self) now input_text answer)
       | Failed str_e =>
           process now input_text context kwargs self
           = (self, Ok ("Lo siento, ocurrió un error: " +:+ str_e))
       end).
Proof.
  split.
  - intros Hc. unfold process. by rewrite Hc.
  - intros c p messages params Hc Hp Hin Hm Hg.
    unfold process. rewrite Hc.
    unfold mbind, method_bind. rewrite Hm, Hg.
    unfold generate. rewrite Hp.
    assert (Hcall :
      (if eq_str (VStr p) "openai"
       then create c "openai" (model_name self) messages params
       else if eq_str (VStr p) "anthropic"
            then create c "anthropic" (model_name self) messages params
            else Answer "Proveedor no soportado")
      = create c p (model_name self) messages params).
    { apply elem_of_cons in Hin as [->|Hin]; [done|].
      by apply list_elem_of_singleton in Hin as ->. }
    rewrite Hcall.
    destruct (create c p (model_name self) messages params) as [answer|str_e];
      [|done].
    eexists. split; [reflexivity|]. split; [|reflexivity].
    by destruct self.
Qed.

Lemma process_appends_only_on_success_witness :
  (let self := Sample.conversational "openai" 2 Sample.past in
   ∃ self',
     process (H := Sample.backend) "t4" "cuatro" None ∅ self = (self', Ok "Hola")
     ∧ BaseAgent.history (super self')
       = Sample.past ++ [Interaction "t4" "cuatro" "Hola"]
     ∧ self' = set_super self
                 (BaseAgent.add_to_history (super self) "t4" "cuatro" "Hola"))
  ∧ (let self := Sample.conversational "anthropic" 2 Sample.past in
     process (H := Sample.backend) "t4" "cuatro" None ∅ self
     = (self, Ok "Lo siento, ocurrió un error: Connection error.")).
Proof.
  split.
  - exact (proj2 (process_appends_only_on_success (H := Sample.backend)
                    (Sample.conversational "openai" 2 Sample.past)
                    "t4" "cuatro" None ∅)
             tt "openai" _ _ eq_refl eq_refl (list_elem_of_here _ _)
             eq_refl eq_refl).
  - exact (proj2 (process_appends_only_on_success (H := Sample.backend)
                    (Sample.conversational "anthropic" 2 Sample.past)
                    "t4" "cuatro" None ∅)
             tt "anthropic" _ _ eq_refl eq_refl
             (list_elem_of_further _ _ _ (list_elem_of_here _ _))
             eq_refl eq_refl).
Defined.

End Process.

(** ** The classifier before training *)

Section Untrained.
Context `{Sklearn}.
Import ClassifierAgent.

Lemma train_vectorizer_first (training_data : list value) (self : t) :
  vectorizer_first self → vectorizer_first (train training_data self).1.
Proof.
  intros Hinv. unfold train, mbind, method_bind, pure_, assign.
  destruct (comprehension _ training_data) as [texts|e]; [|done].
  destruct (comprehension _ training_data) as [labels|e]; [|done].
  destruct (unique labels) as [cls|e]; [|done].
  destruct (train_test_split texts labels) as [[[[X_train X_test] y_train] y_test]|e];
    [|done].
  destruct (fit_transform TfidfVectorizer X_train) as [v [X_train_vec|e]];
    [|by intros ?].
  simpl.
  destruct (transform v X_test) as [X_test_vec|e]; [|by intros ?].
  destruct (fit RandomForestClassifier X_train_vec y_train) as [m [[]|e]];
    [|by intros ?].
  simpl. destruct (predict m X_test_vec) as [y_pred|e]; [|by intros ?].
  destruct (classification_report y_test y_pred) as [report|e]; by intros ?.
Qed.

Lemma process_keeps_estimators (now input_text : string) (self : t) :
  model (process now input_text self).1 = model self
  ∧ vectorizer (process now input_text self).1 = vectorizer self.
Proof.
  unfold process, mbind, method_bind, pure_, inherited.
  destruct (untrained self) as [[]|e]; [done| |done].
  destruct (deref "transform" (vectorizer self)) as [vec|e]; [|done].
  destruct (transform vec _) as [X|e]; [|done].
  destruct (deref "predict" (model self)) as [mdl|e]; [|done].
  destruct (result_bind _ _ _ (predict mdl X)) as [prediction|e]; [|done].
  destruct (result_bind _ _ _ (predict_proba mdl X)) as [confidence|e]; done.
Qed.

Lemma reachable_vectorizer_first (self : t) :
  reachable self → vectorizer_first self.
Proof.
  induction 1 as [w cp a Hinit|w p cp a Hload|a data _ IH|a now inp _ IH|a b _ IH].
  - unfold __init__ in Hinit.
    destruct (BaseAgent.__init__ w cp); [|done]. by injection Hinit as <-.
  - unfold load in Hload. simpl in Hload.
    destruct (OS.read_document w p) as [doc|]; [|done]. simpl in Hload.
    destruct (py_get doc "config" _); [|done]. simpl in Hload.
    unfold __init__ in Hload.
    destruct (BaseAgent.__init__ w cp) as [b|]; [|done]. simpl in Hload.
    destruct (py_get doc "name" _); [|done]. simpl in Hload.
    destruct (py_get doc "version" _); [|done]. simpl in Hload.
    by injection Hload as <-.
  - by apply train_vectorizer_first.
  - unfold vectorizer_first.
    destruct (process_keeps_estimators now inp a) as [-> ->]. exact IH.
  - exact IH.
Qed.


End Untrained.



(** ** Persistence *)

Section Persistence.
Import OS.

Lemma node_at_insert_ne (f : gmap (list string) node) (c p cur : list string)
    (n : node) :
  cur ≠ p → node_at (World (<[p := n]> f) c) cur = node_at (World f c) cur.
Proof.
  intros Hne. destruct cur as [|x cur]; [done|]. simpl.
  by rewrite lookup_insert_ne.
Qed.

Lemma node_at_insert_eq (f : gmap (list string) node) (c p : list string)
    (n : node) :
  p ≠ [] → node_at (World (<[p := n]> f) c) p = Some n.
Proof.
  intros Hne. destruct p as [|x p]; [done|]. simpl.
  by rewrite lookup_insert_eq.
Qed.

(** Writing a file where no directory stands does not disturb the lookup of
    a path that led there. *)
Lemma walk_after_write (w : world) (orig : string) (doc : value)
    (comps : list string) (cur p : list string) :
  walk w orig cur comps = Ok p →
  node_at w p ≠ Some Dir →
  walk (World (<[p := File doc]> (fs w)) (cwd w)) orig cur comps = Ok p.
Proof.
  intros Hwalk Hp. revert cur Hwalk.
  induction comps as [|c comps IH]; intros cur Hwalk; simpl in *; [done|].
  destruct (node_at w cur) as [[|content]|] eqn:Hcur; try done.
  assert (Hne : cur ≠ p) by (intros ->; congruence).
  destruct w as [f cw]. simpl in *.
  rewrite (node_at_insert_ne f cw p cur _ Hne), Hcur. by apply IH.
Qed.

Lemma read_after_write (w w' : world) (path : string) (doc : value) :
  write_document w path doc = (w', Ok tt) →
  read_document w' path = Ok doc.
Proof.
  unfold write_document, read_document, locate.
  destruct (String.eqb path "") eqn:Hpath; [done|].
  destruct (walk w path (start_of w path) (split_sep path)) as [p|e] eqn:Hwalk;
    [|done].
  assert (Hstart : ∀ f, start_of (World f (cwd w)) path = start_of w path)
    by done.
  assert (Hroot : node_at w p ≠ Some Dir → p ≠ []) by (by intros ? ->).
  destruct (node_at w p) as [[|content]|] eqn:Hp; [done| |].
  all: intros [= <-]; simpl.
  all: rewrite Hstart, (walk_after_write w path doc _ _ p Hwalk) by congruence.
  all: simpl; rewrite node_at_insert_eq; [done|by apply Hroot].
Qed.

Lemma init_history (w : world) (config_path : string) (b : BaseAgent.t) :
  BaseAgent.__init__ w config_path = Ok b → BaseAgent.history b = [].
Proof.
  unfold BaseAgent.__init__.
  destruct (BaseAgent._load_config w config_path) as [cfg|]; [|done]. simpl.
  destruct (BaseAgent.lookup2 cfg "agent" "name" _) as [n|]; [|done]. simpl.
  destruct (BaseAgent.lookup2 cfg "agent" "version" _) as [v|]; [|done]. simpl.
  by intros [= <-].
Qed.

Lemma save_written (self : BaseAgent.t) (now : string) (w w' : world)
    (path : string) :
  BaseAgent.save self now w path = (w', Ok tt) →
  read_document w' path = Ok (BaseAgent.save_data self now).
Proof.
  unfold BaseAgent.save.
  destruct (makedirs w (dirname path)) as [w1 [[]|e]]; [|done].
  apply read_after_write.
Qed.

Lemma save_data_fields (self : BaseAgent.t) (now : string) :
  ∃ d : dict,
    BaseAgent.save_data self now = VDict d
    ∧ d !! "name" = Some (BaseAgent.name self)
    ∧ d !! "version" = Some (BaseAgent.version self)
    ∧ d !! "config" = Some (BaseAgent.config self)
    ∧ d !! "timestamp" = Some (VStr now).
Proof. eexists. split; [reflexivity|]. repeat split; reflexivity. Qed.

(** C2, amended for an empty saved configuration: [save] writes the snapshot
    with [name], [version], [config] and the timestamp; a [load] of it, the
    constructor succeeding on [config_path], yields an agent with the saved
    name and version, an empty history, and the saved config when that one
    is non-empty; an empty saved config leaves the config the constructor
    read from [config_path]. *)
Theorem load_restores_saved_identity {A} `{AgentClass A} (agent : A)
    (now : string) (w w' : world) (path config_path : string) (fresh : A) :
  BaseAgent.save (base agent) now w path = (w', Ok tt) →
  construct w' config_path = Ok fresh →
  read_document w' path
  = Ok (VDict {[ "name" := BaseAgent.name (base agent);
                 "version" := BaseAgent.version (base agent);
                 "config" := BaseAgent.config (base agent);
                 "timestamp" := VStr now ]})
  ∧ ∃ loaded : A,
      load w' path config_path = Ok loaded
      ∧ BaseAgent.name (base loaded) = BaseAgent.name (base agent)
      ∧ BaseAgent.version (base loaded) = BaseAgent.version (base agent)
      ∧ BaseAgent.config (base loaded)
        = (if truthy (BaseAgent.config (base agent))
           then BaseAgent.config (base agent)
           else BaseAgent.config (base fresh))
      ∧ BaseAgent.history (base loaded) = [].
Proof.
  intros Hsave Hfresh. apply save_written in Hsave.
  split; [exact Hsave|].
  destruct (save_data_fields (base agent) now) as (d & Hd & Hn & Hv & Hc & _).
  unfold load. rewrite Hsave, Hd. simpl. rewrite Hfresh. simpl.
  eexists. split; [reflexivity|].
  rewrite base_with_base.
  apply construct_base, init_history in Hfresh.
  unfold get_or. rewrite Hn, Hv, Hc. simpl.
  repeat split; try done.
  - by destruct (truthy (BaseAgent.config (base agent))).
  - by destruct (truthy (BaseAgent.config (base agent))).
Qed.

Lemma load_restores_saved_identity_witness :
  let agent := CustomAgent.Make
                 (BaseAgent.Make Sample.live_config (VStr "Mira") (VStr "2.0.0")
                    [Interaction "t1" "uno" "one"]) in
  ∃ (w' : world) (loaded : CustomAgent.t),
    BaseAgent.save (base agent) "t2" Sample.configured_world "models/v1/agent.json"
    = (w', Ok tt)
    ∧ load w' "models/v1/agent.json" "missing.yaml" = Ok loaded
    ∧ BaseAgent.name (base loaded) = VStr "Mira"
    ∧ BaseAgent.version (base loaded) = VStr "2.0.0"
    ∧ BaseAgent.config (base loaded) = Sample.live_config
    ∧ BaseAgent.history (base loaded) = [].
Proof.
  intros agent.
  pose proof (load_restores_saved_identity agent "t2" Sample.configured_world
                _ "models/v1/agent.json" "missing.yaml" _ eq_refl eq_refl)
    as (_ & loaded & Hload & Hn & Hv & Hc & Hh).
  exact (ex_intro _ _ (ex_intro _ loaded
           (conj eq_refl (conj Hload (conj Hn (conj Hv (conj Hc Hh))))))).
Defined.

(** The claim as first stated fails for an agent whose configuration is
    empty: built from a missing file, saved, and loaded beside an existing
    configuration file, it comes back with that file's configuration and
    not with the saved, empty one. *)
Lemma load_empty_config_counterexample :
  ∃ (agent loaded : CustomAgent.t) (w' : world),
    CustomAgent.__init__ Sample.configured_world "missing.yaml" = Ok agent
    ∧ BaseAgent.save (base agent) "t1" Sample.configured_world
        "models/agent.json" = (w', Ok tt)
    ∧ load w' "models/agent.json" "config/agent_config.yaml" = Ok loaded
    ∧ BaseAgent.config (base agent) = VDict ∅
    ∧ BaseAgent.config (base loaded) = Sample.live_config
    ∧ BaseAgent.config (base loaded) ≠ BaseAgent.config (base agent).
Proof.
  eexists _, _, _.
  split; [reflexivity|]. split; [reflexivity|]. split; [vm_compute; reflexivity|].
  split; [reflexivity|]. split; [reflexivity|].
  vm_compute. intros Heq. discriminate Heq.
Qed.

(** A path without a directory part has the empty string as its
    [dirname], and [os.makedirs] refuses it. *)
Lemma save_without_directory (self : BaseAgent.t) (now : string) (w : world)
    (path : string) :
  dirname path = "" →
  BaseAgent.save self now w path = (w, Raise (FileNotFoundError "")).
Proof. intros Hdir. unfold BaseAgent.save. by rewrite Hdir. Qed.

(** C8: [save] on a bare file name raises [FileNotFoundError] from
    [os.makedirs('')], whatever the agent and the file system, and writes
    nothing; the same agent saved under [models/v1/], which does not exist
    yet, has these directories created and its snapshot written. *)
Theorem save_bare_filename_raises (self : BaseAgent.t) (now : string)
    (w : world) :
  BaseAgent.save self now w "agent.json" = (w, Raise (FileNotFoundError ""))
  ∧ ∃ w', BaseAgent.save self now Sample.configured_world "models/v1/agent.json"
          = (w', Ok tt)
          ∧ node_at Sample.configured_world ["app"; "models"] = None
          ∧ node_at w' ["app"; "models"] = Some Dir
          ∧ node_at w' ["app"; "models"; "v1"] = Some Dir
          ∧ read_document w' "models/v1/agent.json"
            = Ok (BaseAgent.save_data self now).
Proof.
  split; [by apply save_without_directory|].
  eexists. split; [reflexivity|]. repeat split; reflexivity.
Qed.

End Persistence.

(** ** Splitting a corpus *)

Section Split.
Context `{Random}.
Import DataProcessor.

Lemma swap_Permutation {A} (i j : nat) (x : list A) : swap i j x ≡ₚ x.
Proof.
  unfold swap. destruct (x !! i) as [a|] eqn:Hi; [|done].
  destruct (x !! j) as [b|] eqn:Hj; [|done].
  by apply Permutation_insert_swap.
Qed.

(** The index drawn for position [i] is at most [i]: the swap never leaves
    the list. *)
Lemma swap_in_range {A} (g : rng) (i : nat) (x : list A) :
  (i < length x)%nat →
  let j := (randbelow g (S i)).1 in
  ∃ a b, x !! i = Some a ∧ x !! j = Some b
         ∧ swap i j x = <[j := a]> (<[i := b]> x).
Proof.
  intros Hi j.
  assert (Hj : (j < length x)%nat).
  { pose proof (randbelow_lt g (S i) ltac:(lia)). unfold j. lia. }
  destruct (lookup_lt_is_Some_2 x i Hi) as [a Ha].
  destruct (lookup_lt_is_Some_2 x j Hj) as [b Hb].
  exists a, b. unfold swap. by rewrite Ha, Hb.
Qed.

Lemma shuffle_from_Permutation {A} (i : nat) (g : rng) (x : list A) :
  shuffle_from i g x ≡ₚ x.
Proof.
  revert g x. induction i as [|i IH]; intros g x; simpl; [done|].
  destruct (randbelow g (S (S i))) as [j g'].
  rewrite IH. apply swap_Permutation.
Qed.

Lemma shuffle_Permutation {A} (g : rng) (x : list A) : shuffle g x ≡ₚ x.
Proof. apply shuffle_from_Permutation. Qed.

Lemma shuffle_length {A} (g : rng) (x : list A) :
  length (shuffle g x) = length x.
Proof. apply Permutation_length, shuffle_Permutation. Qed.

Lemma slice_prefix {A} (a : Z) (l : list A) :
  0 ≤ a → py_slice None (Some a) l = take (Z.to_nat a) l.
Proof.
  intros Ha. unfold py_slice, slice_bound. simpl.
  rewrite (proj2 (Z.ltb_ge a 0)) by lia.
  rewrite (Z.min_l 0) by lia. rewrite Z.sub_0_r, Z2Nat.inj_0, drop_0.
  destruct (Z.min_spec a (Z.of_nat (length l))) as [[Hlt ->]|[Hge ->]]; [done|].
  rewrite Nat2Z.id. by rewrite !take_ge by lia.
Qed.

Lemma slice_middle {A} (a b : Z) (l : list A) :
  0 ≤ a → 0 ≤ b →
  py_slice (Some a) (Some (a + b)) l
  = take (Z.to_nat b) (drop (Z.to_nat a) l).
Proof.
  intros Ha Hb. unfold py_slice, slice_bound. simpl.
  rewrite (proj2 (Z.ltb_ge a 0)), (proj2 (Z.ltb_ge (a + b) 0)) by lia.
  destruct (Z.min_spec a (Z.of_nat (length l))) as [[Hlt ->]|[Hge ->]].
  - destruct (Z.min_spec (a + b) (Z.of_nat (length l))) as [[Hlt' ->]|[Hge' ->]].
    + f_equal. lia.
    + rewrite !take_ge; [done| |]; rewrite length_drop; lia.
  - rewrite Nat2Z.id. rewrite !drop_ge by lia. by rewrite !take_nil.
Qed.

Lemma slice_suffix {A} (c : Z) (l : list A) :
  0 ≤ c → py_slice (Some c) None l = drop (Z.to_nat c) l.
Proof.
  intros Hc. unfold py_slice, slice_bound. simpl.
  rewrite (proj2 (Z.ltb_ge c 0)) by lia.
  rewrite (proj2 (Z.ltb_ge (Z.of_nat (length l)) 0)) by lia.
  rewrite Z.min_id.
  destruct (Z.min_spec c (Z.of_nat (length l))) as [[Hlt ->]|[Hge ->]].
  - apply take_ge. rewrite length_drop. lia.
  - rewrite Nat2Z.id, Z.sub_diag. simpl. rewrite take_0.
    symmetry. apply drop_ge. lia.
Qed.

Lemma int_of_float_no_ratio_error (f total : float) :
  int_of_float f ≠ Raise (RatioError total).
Proof. unfold int_of_float. by destruct (Prim2SF f). Qed.

(** C3, amended for slices that reach the end of the list: [split_data]
    raises its ratio error exactly when [abs(total - 1.0) > 0.01] holds of
    the float sum; otherwise, the two truncated products [a] and [b] being
    nonnegative, it returns three consecutive pieces of the shuffled copy,
    which is a permutation of the input: [min(a, n)] train items, then
    [min(b, n - train)] validation items, then the rest as test. *)
Theorem split_data_partitions (data : list value)
    (train_ratio val_ratio test_ratio : float) (random_seed : Z) (a b : Z) :
  let total := (train_ratio + val_ratio + test_ratio)%float in
  let shuffled := shuffle (seed random_seed) data in
  let n := length data in
  (split_data data train_ratio val_ratio test_ratio random_seed
   = Raise (RatioError total) ↔ ratios_off total = true)
  ∧ (ratios_off total = false →
     int_of_float (float_of_len n * train_ratio) = Ok a →
     int_of_float (float_of_len n * val_ratio) = Ok b →
     0 ≤ a → 0 ≤ b →
     ∃ train val test : list value,
       split_data data train_ratio val_ratio test_ratio random_seed
       = Ok (train, val, test)
       ∧ train ++ val ++ test = shuffled
       ∧ shuffled ≡ₚ data
       ∧ length train = (Z.to_nat a `min` n)%nat
       ∧ length val = (Z.to_nat b `min` (n - length train))%nat
       ∧ length test = (n - length train - length val)%nat).
Proof.
  intros total shuffled n. split.
  - unfold split_data. fold total. destruct (ratios_off total); [done|].
    split; [|done]. rewrite shuffle_length.
    destruct (int_of_float (float_of_len (length data) * train_ratio))
      as [a'|e] eqn:Ea; simpl.
    + destruct (int_of_float (float_of_len (length data) * val_ratio))
        as [b'|e] eqn:Eb; simpl; [done|].
      intros [= ->]. by apply int_of_float_no_ratio_error in Eb.
    + intros [= ->]. by apply int_of_float_no_ratio_error in Ea.
  - intros Hok Ha Hb Ha0 Hb0. unfold split_data. fold total. rewrite Hok.
    rewrite shuffle_length. fold n. rewrite Ha. simpl. rewrite Hb. simpl.
    fold shuffled. eexists _, _, _. split; [reflexivity|].
    rewrite slice_prefix, slice_middle, slice_suffix by lia.
    assert (Hn : length shuffled = n) by apply shuffle_length.
    replace (Z.to_nat (a + b)) with (Z.to_nat a + Z.to_nat b)%nat by lia.
    split; [|split; [apply shuffle_Permutation|]].
    + rewrite <- drop_drop. by rewrite !take_drop.
    + rewrite !length_take, !length_drop, Hn. lia.
Qed.

End Split.

Lemma split_data_partitions_witness :
  ∃ train val test : list value,
    DataProcessor.split_data (H := Sample.random) Sample.hundred
      0.7 0.15 0.15 42 = Ok (train, val, test)
    ∧ train ++ val ++ test = shuffle (H := Sample.random) 42 Sample.hundred
    ∧ shuffle (H := Sample.random) 42 Sample.hundred ≡ₚ Sample.hundred
    ∧ length train = 70%nat
    ∧ length val = 15%nat
    ∧ length test = 15%nat.
Proof.
  destruct (proj2 (split_data_partitions (H := Sample.random) Sample.hundred
                     0.7 0.15 0.15 42 70 15)
              eq_refl eq_refl eq_refl ltac:(lia) ltac:(lia))
    as (train & val & test & Hsplit & Happ & Hperm & Htrain & Hval & Htest).
  exists train, val, test.
  rewrite Htrain in Hval. rewrite Htrain, Hval in Htest.
  exact (conj Hsplit (conj Happ (conj Hperm (conj Htrain (conj Hval Htest))))).
Defined.

(** The claim as first stated fails when the two slices reach past the end:
    the ratios [1.0], [1/128] and [0.0] pass the check, and of 128 records
    the validation part gets none, where [floor(128 / 128)] is one. *)
Lemma split_data_overlong_counterexample :
  let data := (fun i => VInt i) <$> seqZ 0 128 in
  DataProcessor.ratios_off (1.0 + 0.0078125 + 0.0) = false
  ∧ int_of_float (float_of_len (length data) * 0.0078125) = Ok 1
  ∧ ∃ train test : list value,
      DataProcessor.split_data (H := Sample.random) data 1.0 0.0078125 0.0 42
      = Ok (train, [], test)
      ∧ length train = 128%nat.
Proof.
  intros data. split; [vm_compute; reflexivity|].
  split; [vm_compute; reflexivity|].
  eexists _, _. split; vm_compute; reflexivity.
Qed.

(** * Part III: further properties of the embedded code *)

(** ** Generation parameters and the turn as a whole *)

Section Turn.
Context `{Backend}.
Import ConversationalAgent.

Lemma set_super_super (self : t) : set_super self (super self) = self.
Proof. by destruct self. Qed.

Lemma build_messages_reads_only (input_text : string)
    (context : option string) (self : t) :
  (_build_messages input_text context self).1 = self.
Proof.
  unfold _build_messages, mbind, method_bind, attr, pure_, inherited,
    mret, method_ret, BaseAgent.get_history.
  simpl. repeat case_match; simplify_eq/=; by rewrite ?set_super_super.
Qed.

Lemma get_generation_params_reads_only (kwargs : dict) (self : t) :
  (_get_generation_params kwargs self).1 = self.
Proof.
  unfold _get_generation_params, mbind, method_bind, attr, pure_,
    mret, method_ret.
  simpl. by repeat case_match.
Qed.

(** X1: generation parameters are resolved key by key: the keyword
    argument when one is passed (even [None]), else the value configured
    under [agent.parameters], else the built-in default; the result has
    exactly the three keys and the agent is not touched. *)
Theorem generation_params_precedence (self : t) (kwargs params : dict) :
  BaseAgent.lookup2 (BaseAgent.config (super self)) "agent" "parameters"
    (VDict ∅) = Ok (VDict params) →
  ∃ r : dict,
    _get_generation_params kwargs self = (self, Ok r)
    ∧ dom r = ({[ "temperature"; "max_tokens"; "top_p" ]} : gset string)
    ∧ ∀ (k : string) (dflt : value),
        (k, dflt) ∈ [("temperature", VFloat 0.7); ("max_tokens", VInt 500);
                     ("top_p", VFloat 0.9)] →
        r !! k = Some (match kwargs !! k, params !! k with
                       | Some v, _ => v
                       | None, Some v => v
                       | None, None => dflt
                       end).
Proof.
  intros Hparams.
  unfold _get_generation_params, mbind, method_bind, attr, pure_,
    mret, method_ret. simpl.
  rewrite Hparams. simpl. eexists. split; [reflexivity|]. split.
  - rewrite !dom_insert_L, dom_singleton_L. set_solver.
  - intros k dflt Hin. unfold get_or.
    repeat (apply elem_of_cons in Hin as [[= -> ->]|Hin]);
      try (by apply elem_of_nil in Hin); simplify_map_eq;
      by repeat case_match.
Qed.

Lemma append_examples_missing_key (good : list dict) (bad : dict)
    (rest : list value) (messages : list message) :
  Forall (fun d => is_Some (d !! "user") ∧ is_Some (d !! "assistant")) good →
  bad !! "user" = None ∨ bad !! "assistant" = None →
  append_examples ((VDict <$> good) ++ VDict bad :: rest) messages
  = Raise (KeyError (match bad !! "user" with
                     | None => "user"
                     | Some _ => "assistant"
                     end)).
Proof.
  intros Hgood Hbad. revert messages.
  induction Hgood as [|d good [[u Hu] [a Ha]] _ IH]; intros messages; simpl.
  - destruct (bad !! "user") as [u|]; [|done]. simpl.
    destruct Hbad as [Hbad|Hbad]; [done|]. by rewrite Hbad.
  - rewrite Hu, Ha. simpl. apply IH.
Qed.

(** X2: message assembly runs before the guarded block, so its errors are
    not turned into an answer: when a few-shot example lacks its [user]
    (or, failing that, its [assistant]) entry, [process] raises the
    [KeyError], the provider is not called and the agent is left as it
    was. *)
Theorem process_raises_on_malformed_example (self : t) (c : Client)
    (now input_text : string) (context : option string) (kwargs : dict)
    (cfg prompts : dict) (good : list dict) (bad : dict) (rest : list value) :
  client self = Some c →
  BaseAgent.config (super self) = VDict cfg →
  get_or cfg "prompts" (VDict ∅) = VDict prompts →
  get_or prompts "few_shot_examples" (VList [])
  = VList ((VDict <$> good) ++ VDict bad :: rest) →
  Forall (fun d => is_Some (d !! "user") ∧ is_Some (d !! "assistant")) good →
  bad !! "user" = None ∨ bad !! "assistant" = None →
  process now input_text context kwargs self
  = (self, Raise (KeyError (match bad !! "user" with
                            | None => "user"
                            | Some _ => "assistant"
                            end))).
Proof.
  intros Hc Hcfg Hp Hfs Hgood Hbad. unfold process. rewrite Hc.
  unfold mbind at 1. unfold method_bind.
  unfold _build_messages, mbind, method_bind, attr, pure_. simpl.
  unfold BaseAgent.lookup2, py_get. rewrite Hcfg. simpl. rewrite Hp. simpl.
  rewrite Hfs. simpl.
  by rewrite (append_examples_missing_key _ _ _ _ Hgood Hbad).
Qed.

(** X3: an agent built by the constructor has no client when its provider
    is neither [openai] nor [anthropic], or when the provider's library
    cannot be imported; every [process] call then returns the
    not-configured text and changes nothing. *)
Theorem unsupported_provider_disables_agent (w : OS.world)
    (config_path : string) (a : t) (now input_text : string)
    (context : option string) (kwargs : dict) :
  __init__ w config_path = Ok a →
  (eq_str (provider a) "openai" = false
   ∧ eq_str (provider a) "anthropic" = false)
  ∨ (∃ p what, provider a = VStr p ∧ new_client p = Raise (ImportError what)) →
  client a = None
  ∧ process now input_text context kwargs a = (a, Ok not_configured).
Proof.
  intros Hinit Hprov.
  assert (Hc : client a = None).
  { unfold __init__ in Hinit.
    destruct (BaseAgent.__init__ w config_path) as [b|]; [|done].
    simpl in Hinit. destruct (py_get _ "model" _) as [mc|]; [|done].
    simpl in Hinit. destruct (py_get mc "provider" _) as [pr|]; [|done].
    simpl in Hinit. destruct (py_get mc "model_name" _) as [mn|]; [|done].
    simpl in Hinit. destruct (_init_client pr) as [cl|] eqn:Hcl; [|done].
    simpl in Hinit. injection Hinit as <-. simpl in *.
    unfold _init_client in Hcl.
    destruct Hprov as [[Ho Ha]|(p & what & Hp & Himp)].
    - rewrite Ho, Ha in Hcl. by injection Hcl as <-.
    - rewrite Hp in Hcl. simpl in Hcl.
      destruct (String.eqb p "openai") eqn:Eo.
      { apply String.eqb_eq in Eo. rewrite Eo in Himp. rewrite Himp in Hcl.
        by injection Hcl as <-. }
      destruct (String.eqb p "anthropic") eqn:Ea.
      { apply String.eqb_eq in Ea. rewrite Ea in Himp. rewrite Himp in Hcl.
        by injection Hcl as <-. }
      by injection Hcl as <-. }
  split; [exact Hc|]. unfold process. by rewrite Hc.
Qed.

Lemma process_cases (self : t) (now input_text : string)
    (context : option string) (kwargs : dict) :
  (∃ r, process now input_text context kwargs self = (self, r))
  ∨ (∃ answer,
       process now input_text context kwargs self
       = (set_super self
            (BaseAgent.add_to_history (super self) now input_text answer),
          Ok answer)).
Proof.
  unfold process. destruct (client self) as [c|]; [|by left; eexists].
  unfold mbind, method_bind.
  pose proof (build_messages_reads_only input_text context self) as Hb.
  destruct (_build_messages input_text context self) as [s1 [messages|e]];
    simpl in Hb; subst s1; [|by left; eexists].
  pose proof (get_generation_params_reads_only kwargs self) as Hg.
  destruct (_get_generation_params kwargs self) as [s2 [params|e]];
    simpl in Hg; subst s2; [|by left; eexists].
  unfold generate.
  destruct (if eq_str (provider self) "openai" then _ else _) as [answer|str_e];
    [by right; eexists|by left; eexists].
Qed.

(** X4: whatever a [process] call returns or raises, it leaves identity,
    configuration, provider and client as they were, and the history is
    either unchanged or longer by exactly one interaction, the one of this
    input and the returned answer. *)
Theorem process_history_grows_by_at_most_one (self : t)
    (now input_text : string) (context : option string) (kwargs : dict) :
  let self' := (process now input_text context kwargs self).1 in
  let r := (process now input_text context kwargs self).2 in
  BaseAgent.config (super self') = BaseAgent.config (super self)
  ∧ BaseAgent.name (super self') = BaseAgent.name (super self)
  ∧ BaseAgent.version (super self') = BaseAgent.version (super self)
  ∧ provider self' = provider self
  ∧ client self' = client self
  ∧ (self' = self
     ∨ ∃ answer, r = Ok answer
         ∧ BaseAgent.history (super self')
           = BaseAgent.history (super self)
             ++ [Interaction now input_text answer]).
Proof.
  destruct (process_cases self now input_text context kwargs)
    as [[r Hp]|[answer Hp]]; rewrite Hp; simpl.
  - by auto 10.
  - repeat split; try done. right. by exists answer.
Qed.

End Turn.

Section TurnExamples.
Import ConversationalAgent.

Lemma generation_params_precedence_witness :
  ∃ r : dict,
    _get_generation_params (H := Sample.backend)
      {[ "temperature" := VFloat 0.2; "top_p" := VNone ]}
      (Sample.conversational "openai" 2 Sample.past)
    = (Sample.conversational "openai" 2 Sample.past, Ok r)
    ∧ r !! "temperature" = Some (VFloat 0.2)
    ∧ r !! "max_tokens" = Some (VInt 500)
    ∧ r !! "top_p" = Some VNone.
Proof.
  destruct (generation_params_precedence
              (Sample.conversational "openai" 2 Sample.past)
              {[ "temperature" := VFloat 0.2; "top_p" := VNone ]} ∅ eq_refl)
    as (r & Hr & _ & Hk).
  exists r. split; [exact Hr|].
  split; [exact (Hk _ _ (list_elem_of_here _ _))|].
  split; [exact (Hk _ _ (list_elem_of_further _ _ _ (list_elem_of_here _ _)))|].
  exact (Hk _ _ (list_elem_of_further _ _ _
                   (list_elem_of_further _ _ _ (list_elem_of_here _ _)))).
Defined.

Lemma process_raises_on_malformed_example_witness :
  let self :=
    Make (H := Sample.backend)
      (BaseAgent.Make
         (VDict {[ "prompts" := VDict {[ "few_shot_examples" :=
             VList [VDict {[ "user" := VStr "Hola"; "assistant" := VStr "Buenas" ]};
                    VDict {[ "user" := VStr "Precio" ]}] ]} ]})
         (VStr "Agent") (VStr "1.0.0") Sample.past)
      (VDict ∅) (VStr "openai") (VStr "gpt-3.5-turbo") (Some tt) in
  process "t4" "cuatro" None ∅ self = (self, Raise (KeyError "assistant")).
Proof.
  intros self.
  exact (process_raises_on_malformed_example self tt "t4" "cuatro" None ∅
           _ _ [{[ "user" := VStr "Hola"; "assistant" := VStr "Buenas" ]}]
           {[ "user" := VStr "Precio" ]} []
           eq_refl eq_refl eq_refl eq_refl
           ltac:(repeat constructor; eexists; reflexivity)
           (or_intror eq_refl)).
Defined.

Lemma unsupported_provider_disables_agent_witness :
  let w := OS.World {[ ["cfg.yaml"] := OS.File
             (VDict {[ "model" := VDict {[ "provider" := VStr "huggingface" ]} ]}) ]}
             [] in
  ∃ a, __init__ (H := Sample.backend) w "cfg.yaml" = Ok a
       ∧ client a = None
       ∧ process "t1" "Hola" None ∅ a = (a, Ok not_configured).
Proof.
  intros w. eexists. split; [reflexivity|].
  exact (unsupported_provider_disables_agent (H := Sample.backend) w "cfg.yaml"
           _ "t1" "Hola" None ∅ eq_refl (or_introl (conj eq_refl eq_refl))).
Defined.

End TurnExamples.

(** ** Construction and loading *)

Section Construction.

(** X5: the constructor tolerates a missing configuration file, which
    gives the default agent with an empty configuration; any other failure
    to read the file propagates, and a file whose document is not a mapping
    (an empty YAML file loads as [None]) makes it raise [AttributeError]. *)
Theorem constructor_config_cases (w : OS.world) (config_path : string) :
  (∀ p, OS.read_document w config_path = Raise (FileNotFoundError p) →
        BaseAgent.__init__ w config_path
        = Ok (BaseAgent.Make (VDict ∅) (VStr "Agent") (VStr "1.0.0") []))
  ∧ (∀ e, OS.read_document w config_path = Raise e →
          (∀ p, e ≠ FileNotFoundError p) →
          BaseAgent.__init__ w config_path = Raise e)
  ∧ (∀ doc, OS.read_document w config_path = Ok doc →
            (∀ d, doc ≠ VDict d) →
            BaseAgent.__init__ w config_path = Raise (AttributeError "get"))
  ∧ (∀ cfg section,
       OS.read_document w config_path = Ok (VDict cfg) →
       cfg !! "agent" = Some (VDict section) →
       BaseAgent.__init__ w config_path
       = Ok (BaseAgent.Make (VDict cfg)
               (get_or section "name" (VStr "Agent"))
               (get_or section "version" (VStr "1.0.0")) [])).
Proof.
  unfold BaseAgent.__init__, BaseAgent._load_config.
  split; [|split; [|split]].
  - intros p ->. reflexivity.
  - intros e -> Hne. destruct e; try done. by destruct (Hne path).
  - intros doc -> Hnd. simpl. unfold BaseAgent.lookup2, py_get.
    destruct doc; try done. by destruct (Hnd d).
  - intros cfg section -> Hsec. simpl. unfold BaseAgent.lookup2, py_get.
    simpl. unfold get_or at 2 4. by rewrite Hsec.
Qed.

Lemma constructor_config_cases_witness :
  BaseAgent.__init__ Sample.configured_world "missing.yaml"
  = Ok (BaseAgent.Make (VDict ∅) (VStr "Agent") (VStr "1.0.0") []).
Proof.
  exact (proj1 (constructor_config_cases Sample.configured_world "missing.yaml")
           "missing.yaml" eq_refl).
Defined.

Lemma base_eta (b : BaseAgent.t) :
  BaseAgent.set_version (BaseAgent.set_name b (BaseAgent.name b))
    (BaseAgent.version b) = b.
Proof. by destruct b. Qed.

(** X6: [load] does not tolerate a missing snapshot: whatever reading it
    raises propagates, and a snapshot that is not a JSON object raises
    [AttributeError] before the constructor runs; a snapshot object without
    [config], [name] and [version] leaves the inherited attributes as the
    constructor set them. *)
Theorem load_snapshot_cases {A} `{AgentClass A} (w : OS.world)
    (path config_path : string) :
  (∀ e, OS.read_document w path = Raise e →
        load (A := A) w path config_path = Raise e)
  ∧ (∀ doc, OS.read_document w path = Ok doc → (∀ d, doc ≠ VDict d) →
            load (A := A) w path config_path = Raise (AttributeError "get"))
  ∧ (∀ (d : dict) (fresh : A),
       OS.read_document w path = Ok (VDict d) →
       d !! "config" = None → d !! "name" = None → d !! "version" = None →
       construct w config_path = Ok fresh →
       ∃ loaded : A, load w path config_path = Ok loaded
                     ∧ base loaded = base fresh).
Proof.
  unfold load. split; [|split].
  - by intros e ->.
  - intros doc -> Hnd. simpl. destruct doc; try done. by destruct (Hnd d).
  - intros d fresh -> Hc Hn Hv Hfresh. simpl. unfold get_or.
    rewrite Hc, Hn, Hv, Hfresh. simpl.
    eexists. split; [reflexivity|].
    by rewrite base_with_base, base_eta.
Qed.

Lemma load_snapshot_cases_witness :
  load (A := CustomAgent.t) Sample.configured_world "models/agent.json"
    "config/agent_config.yaml"
  = Raise (FileNotFoundError "models/agent.json").
Proof.
  exact (proj1 (load_snapshot_cases (A := CustomAgent.t)
                  Sample.configured_world "models/agent.json"
                  "config/agent_config.yaml") _ eq_refl).
Defined.

End Construction.

(** ** The factory *)

Section FactoryFacts.
Context `{Backend} `{Sklearn}.

Lemma lower_char_idemp (c : ascii) : lower_char (lower_char c) = lower_char c.
Proof.
  unfold lower_char.
  destruct ((65 <=? nat_of_ascii c)%nat && (nat_of_ascii c <=? 90)%nat) eqn:E;
    [|by rewrite E].
  apply andb_true_iff in E as [E1 E2].
  apply Nat.leb_le in E1, E2.
  rewrite nat_ascii_embedding by lia.
  destruct (65 <=? _)%nat eqn:E3; [|done]. simpl.
  destruct (_ <=? 90)%nat eqn:E4; [|done].
  apply Nat.leb_le in E4. lia.
Qed.

Lemma lower_idemp (s : string) : lower (lower s) = lower s.
Proof.
  induction s as [|c s IH]; [done|]. simpl. by rewrite lower_char_idemp, IH.
Qed.

(** X7: [create_agent] looks the type up by its lower-cased name: a type
    that lowers to one of the three keys builds the same agent as the key
    itself, through that class's constructor; any other type raises
    [ValueError] whatever the configuration path holds. *)
Theorem create_agent_dispatch (agent_type : string) (w : OS.world)
    (config_path : string) :
  (lower agent_type ∈ ["conversational"; "classifier"; "custom"] →
   create_agent agent_type w config_path
   = create_agent (lower agent_type) w config_path)
  ∧ create_agent "conversational" w config_path
    = Conversational <$> ConversationalAgent.__init__ w config_path
  ∧ create_agent "classifier" w config_path
    = Classifier <$> ClassifierAgent.__init__ w config_path
  ∧ create_agent "custom" w config_path
    = Custom <$> CustomAgent.__init__ w config_path
  ∧ (lower agent_type ∉ ["conversational"; "classifier"; "custom"] →
     create_agent agent_type w config_path = Raise (unsupported agent_type)).
Proof.
  split; [|split; [done|split; [done|split; [done|]]]].
  - intros Hin. unfold create_agent. rewrite lower_idemp.
    repeat (apply elem_of_cons in Hin as [->|Hin]); try done.
    by apply elem_of_nil in Hin.
  - intros Hnin. unfold create_agent.
    destruct (String.eqb_spec (lower agent_type) "conversational") as [E|_];
      [rewrite E in Hnin; set_solver|].
    destruct (String.eqb_spec (lower agent_type) "classifier") as [E|_];
      [rewrite E in Hnin; set_solver|].
    destruct (String.eqb_spec (lower agent_type) "custom") as [E|_];
      [rewrite E in Hnin; set_solver|].
    done.
Qed.

End FactoryFacts.

Lemma create_agent_dispatch_witness :
  create_agent (H := Sample.backend) (H0 := Sample.sklearn) "Classifier"
    Sample.empty_world "config/agent_config.yaml"
  = create_agent (H := Sample.backend) (H0 := Sample.sklearn) "classifier"
      Sample.empty_world "config/agent_config.yaml"
  ∧ create_agent (H := Sample.backend) (H0 := Sample.sklearn) "chatbot"
      Sample.empty_world "config/agent_config.yaml"
    = Raise (ValueError "Tipo de agente 'chatbot' no soportado. Opciones: ['conversational', 'classifier', 'custom']").
Proof.
  split.
  - exact (proj1 (create_agent_dispatch (H := Sample.backend)
                    (H0 := Sample.sklearn) "Classifier" Sample.empty_world
                    "config/agent_config.yaml")
             ltac:(by apply (bool_decide_unpack _))).
  - exact (proj2 (proj2 (proj2 (proj2
             (create_agent_dispatch (H := Sample.backend)
                (H0 := Sample.sklearn) "chatbot" Sample.empty_world
                "config/agent_config.yaml"))))
             ltac:(by apply (bool_decide_unpack _))).
Defined.

(** ** The fine-tuning export *)

Section FinetuningExport.
Context `{Backend}.
Import OS ConversationalAgent.

Lemma locate_after_write (w w' : world) (path : string) (doc : value) :
  write_document w path doc = (w', Ok tt) →
  ∃ p, locate w' path = Ok p ∧ node_at w' p = Some (File doc).
Proof.
  unfold write_document, locate.
  destruct (String.eqb path "") eqn:Hpath; [done|].
  destruct (walk w path (start_of w path) (split_sep path)) as [p|e] eqn:Hwalk;
    [|done].
  assert (Hroot : node_at w p ≠ Some Dir → p ≠ []) by (by intros ? ->).
  destruct (node_at w p) as [[|content]|] eqn:Hp; [done| |].
  all: intros [= <-]; exists p; simpl.
  all: change (start_of _ path) with (start_of w path).
  all: rewrite (walk_after_write w path doc _ _ p Hwalk) by congruence.
  all: split; [done|]; rewrite node_at_insert_eq; [done|by apply Hroot].
Qed.

(** A file that was written can be written again, and then holds the later
    document. *)
Lemma write_again (w w1 : world) (path : string) (d1 d2 : value) :
  write_document w path d1 = (w1, Ok tt) →
  ∃ w2, write_document w1 path d2 = (w2, Ok tt)
        ∧ read_document w2 path = Ok d2.
Proof.
  intros Hw. destruct (locate_after_write _ _ _ _ Hw) as (p & Hloc & Hnode).
  assert (Hw2 : write_document w1 path d2
                = (World (<[p := File d2]> (fs w1)) (cwd w1), Ok tt)).
  { unfold write_document. by rewrite Hloc, Hnode. }
  eexists. split; [exact Hw2|]. by apply read_after_write in Hw2.
Qed.

Lemma write_lines_dicts (dicts : list dict) (lines : list value) :
  write_lines (VDict <$> dicts) lines = (lines ++ (formatted <$> dicts), Ok tt).
Proof.
  revert lines. induction dicts as [|d dicts IH]; intros lines; simpl.
  - by rewrite app_nil_r.
  - by rewrite IH, <- app_assoc.
Qed.

Lemma write_lines_stops (good : list dict) (bad : value) (rest lines : list value) :
  (∀ d, bad ≠ VDict d) →
  write_lines ((VDict <$> good) ++ bad :: rest) lines
  = (lines ++ (formatted <$> good), Raise (AttributeError "get")).
Proof.
  intros Hbad. revert lines.
  induction good as [|d good IH]; intros lines; simpl.
  - rewrite app_nil_r. destruct bad; try done. by destruct (Hbad d).
  - by rewrite IH, <- app_assoc.
Qed.

(** X8: the conversational [train] leaves the file system alone unless
    [prepare_for_finetuning] is passed and truthy.  When it is, and the
    export directory can be made and the file opened, records that are all
    dicts are exported one per record, in order, with [user] and
    [assistant] defaulting to the empty string; a record that is not a dict
    raises [AttributeError] and leaves in the file the records written
    before it. *)
Theorem train_exports_finetuning_data (self : t) (training_data : list value)
    (kwargs : dict) (w : world) :
  (truthy (get_or kwargs "prepare_for_finetuning" (VBool false)) = false →
   train self training_data kwargs w = (w, Ok tt))
  ∧ (∀ w1 w2,
       truthy (get_or kwargs "prepare_for_finetuning" (VBool false)) = true →
       makedirs w "data/training" = (w1, Ok tt) →
       write_document w1 output_file (VList []) = (w2, Ok tt) →
       (∀ dicts, training_data = VDict <$> dicts →
          ∃ w3, train self training_data kwargs w = (w3, Ok tt)
                ∧ read_document w3 output_file
                  = Ok (VList (formatted <$> dicts)))
       ∧ (∀ good bad rest,
            training_data = (VDict <$> good) ++ bad :: rest →
            (∀ d, bad ≠ VDict d) →
            ∃ w3, train self training_data kwargs w
                  = (w3, Raise (AttributeError "get"))
                  ∧ read_document w3 output_file
                    = Ok (VList (formatted <$> good)))).
Proof.
  unfold train. split; [by intros ->|].
  intros w1 w2 -> Hmk Hopen. unfold _prepare_finetuning_data.
  change (dirname output_file) with "data/training". rewrite Hmk, Hopen.
  split.
  - intros dicts ->. rewrite write_lines_dicts. simpl.
    destruct (write_again _ _ _ _ (VList (formatted <$> dicts)) Hopen)
      as (w3 & -> & Hread).
    by exists w3.
  - intros good bad rest -> Hbad. rewrite (write_lines_stops _ _ _ _ Hbad).
    simpl.
    destruct (write_again _ _ _ _ (VList (formatted <$> good)) Hopen)
      as (w3 & -> & Hread).
    by exists w3.
Qed.

End FinetuningExport.

Section ExportExamples.
Import OS ConversationalAgent.

Lemma train_exports_finetuning_data_witness :
  let self := Sample.conversational "openai" 2 Sample.past in
  let flag : dict := {[ "prepare_for_finetuning" := VBool true ]} in
  (∃ w3, train self [VDict {[ "user" := VStr "Hola" ]}; VInt 7] flag
           Sample.configured_world
         = (w3, Raise (AttributeError "get"))
         ∧ read_document w3 output_file
           = Ok (VList [formatted {[ "user" := VStr "Hola" ]}])).
Proof.
  intros self flag.
  exact (proj2 (proj2 (train_exports_finetuning_data (H := Sample.backend) self
                  [VDict {[ "user" := VStr "Hola" ]}; VInt 7] flag
                  Sample.configured_world)
                  _ _ eq_refl eq_refl eq_refl)
           [{[ "user" := VStr "Hola" ]}] (VInt 7) [] eq_refl
           ltac:(intros d Hd; discriminate Hd)).
Defined.

End ExportExamples.

(** ** Training the classifier *)

Section Training.
Context `{Sklearn}.
Import ClassifierAgent.

Lemma comprehension_subscript_ok (key : string) (dicts : list dict) :
  Forall (fun d => is_Some (d !! key)) dicts →
  comprehension (fun item => subscript item key) (VDict <$> dicts)
  = Ok ((fun d => get d key) <$> dicts).
Proof.
  induction 1 as [|d dicts [v Hv] _ IH]; [done|].
  rewrite !fmap_cons. cbn [comprehension subscript]. rewrite Hv, IH.
  unfold get. by rewrite Hv.
Qed.

Lemma comprehension_subscript_missing (key : string) (good : list dict)
    (bad : dict) (rest : list value) :
  Forall (fun d => is_Some (d !! key)) good →
  bad !! key = None →
  comprehension (fun item => subscript item key)
    ((VDict <$> good) ++ VDict bad :: rest)
  = Raise (KeyError key).
Proof.
  intros Hgood Hbad. induction Hgood as [|d good [v Hv] _ IH].
  - simpl. by rewrite Hbad.
  - rewrite fmap_cons, <- app_comm_cons. cbn [comprehension subscript].
    by rewrite Hv, IH.
Qed.

Lemma train_keeps_super (training_data : list value) (self : t) :
  super (train training_data self).1 = super self.
Proof.
  unfold train, mbind, method_bind, pure_, assign, mret, method_ret.
  destruct (comprehension _ training_data) as [texts|e]; [|done].
  destruct (comprehension _ training_data) as [labels|e]; [|done].
  destruct (unique labels) as [cls|e]; [|done].
  destruct (train_test_split texts labels)
    as [[[[X_train X_test] y_train] y_test]|e]; [|done].
  destruct (fit_transform TfidfVectorizer X_train) as [v [X_train_vec|e]];
    [|done].
  simpl. destruct (transform v X_test) as [X_test_vec|e]; [|done].
  destruct (fit RandomForestClassifier X_train_vec y_train) as [m [[]|e]];
    [|done].
  simpl. destruct (predict m X_test_vec) as [y_pred|e]; [|done].
  by destruct (classification_report y_test y_pred).
Qed.

Lemma train_success_sets_all (training_data : list value) (self : t)
    (report : string) :
  (train training_data self).2 = Ok report →
  is_Some (model (train training_data self).1)
  ∧ is_Some (vectorizer (train training_data self).1)
  ∧ is_Some (classes (train training_data self).1).
Proof.
  unfold train, mbind, method_bind, pure_, assign, mret, method_ret.
  destruct (comprehension _ training_data) as [texts|e]; [|done].
  destruct (comprehension _ training_data) as [labels|e]; [|done].
  destruct (unique labels) as [cls|e]; [|done].
  destruct (train_test_split texts labels)
    as [[[[X_train X_test] y_train] y_test]|e]; [|done].
  destruct (fit_transform TfidfVectorizer X_train) as [v [X_train_vec|e]];
    [|done].
  simpl. destruct (transform v X_test) as [X_test_vec|e]; [|done].
  destruct (fit RandomForestClassifier X_train_vec y_train) as [m [[]|e]];
    [|done].
  simpl. destruct (predict m X_test_vec) as [y_pred|e]; [|done].
  destruct (classification_report y_test y_pred); [|done].
  simpl. intros _. by repeat split; eexists.
Qed.

(** X9: [train] never touches identity, configuration or history; when it
    returns its report, model, vectorizer and classes are all set; and a
    record without [text] makes it raise [KeyError] before anything is
    assigned. *)
Theorem train_outcomes (training_data : list value) (self : t) :
  super (train training_data self).1 = super self
  ∧ (∀ report, (train training_data self).2 = Ok report →
       is_Some (model (train training_data self).1)
       ∧ is_Some (vectorizer (train training_data self).1)
       ∧ is_Some (classes (train training_data self).1))
  ∧ (∀ good bad rest,
       training_data = (VDict <$> good) ++ VDict bad :: rest →
       Forall (fun d => is_Some (d !! "text")) good →
       bad !! "text" = None →
       train training_data self = (self, Raise (KeyError "text"))).
Proof.
  split; [apply train_keeps_super|]. split; [apply train_success_sets_all|].
  intros good bad rest -> Hgood Hbad.
  unfold train, mbind, method_bind, pure_.
  by rewrite (comprehension_subscript_missing "text" _ _ _ Hgood Hbad).
Qed.

(** X10: [train] is not all-or-nothing: the label set is assigned before
    the data is split, so when [train_test_split] raises (as it does on a
    corpus too small to split) the agent keeps its old model and vectorizer
    but already has the new [classes]. *)
Theorem train_failure_keeps_new_classes (dicts : list dict) (self : t)
    (cls : list value) (e : exn) :
  Forall (fun d => is_Some (d !! "text") ∧ is_Some (d !! "label")) dicts →
  unique ((fun d => get d "label") <$> dicts) = Ok cls →
  train_test_split ((fun d => get d "text") <$> dicts)
    ((fun d => get d "label") <$> dicts) = Raise e →
  train (VDict <$> dicts) self = (set_classes (Some cls) self, Raise e).
Proof.
  intros Hwf Hu Hs. unfold train, mbind, method_bind, pure_, assign.
  rewrite (comprehension_subscript_ok "text"),
    (comprehension_subscript_ok "label").
  - by rewrite Hu, Hs.
  - eapply Forall_impl; [exact Hwf|]. by intros d [_ ?].
  - eapply Forall_impl; [exact Hwf|]. by intros d [? _].
Qed.

End Training.

Section TrainingExamples.
Import ClassifierAgent.

Lemma train_outcomes_witness :
  let self := Make (H := Sample.sklearn)
                (BaseAgent.Make (VDict ∅) (VStr "Agent") (VStr "1.0.0") [])
                None None None in
  train [VDict {[ "text" := VStr "Hola"; "label" := VStr "saludo" ]};
         VDict {[ "label" := VStr "precio" ]}] self
  = (self, Raise (KeyError "text")).
Proof.
  intros self.
  exact (proj2 (proj2 (train_outcomes (H := Sample.sklearn) _ self))
           [{[ "text" := VStr "Hola"; "label" := VStr "saludo" ]}]
           {[ "label" := VStr "precio" ]} [] eq_refl
           ltac:(repeat constructor; eexists; reflexivity) eq_refl).
Defined.

Lemma train_failure_keeps_new_classes_witness :
  let self := Make (H := Sample.sklearn)
                (BaseAgent.Make (VDict ∅) (VStr "Agent") (VStr "1.0.0") [])
                None None None in
  train [] self
  = (set_classes (Some []) self,
     Raise (ValueError "With n_samples=0 the resulting train set will be empty.")).
Proof.
  intros self.
  exact (train_failure_keeps_new_classes (H := Sample.sklearn) [] self [] _
           ltac:(constructor) eq_refl eq_refl).
Defined.

End TrainingExamples.

(** ** A session with the echo agent *)

Section Echo.
Import CustomAgent.

(** X11: a session of [process] calls on the echo agent never raises; it
    returns the echo of each input in order and appends one interaction per
    call, in call order, after the history the agent had; identity and
    configuration stay. *)
Theorem echo_session (turns : list (string * string * string)) (self : t) :
  process_all turns self
  = (Make (BaseAgent.set_history (super self)
             (BaseAgent.history (super self) ++ (echo_entry <$> turns))),
     Ok (echo <$> turns)).
Proof.
  revert self. induction turns as [|[[now hms] input] turns IH]; intros self.
  - simpl. unfold mret, method_ret. destruct self as [[c n v h]].
    unfold BaseAgent.set_history. simpl. by rewrite app_nil_r.
  - simpl. unfold mbind, method_bind, process, inherited, mret, method_ret.
    simpl. fold (process_all turns). rewrite IH. simpl.
    unfold BaseAgent.set_history, BaseAgent.add_to_history. simpl.
    by rewrite <- app_assoc.
Qed.

End Echo.

(** ** More on record preparation *)

Section PrepareMore.
Import DataProcessor.

Lemma processed_item_dict (fmt : string) (d : dict) :
  ∃ r, processed_item fmt (VDict d) = Ok r.
Proof. unfold processed_item. repeat case_match; by eexists. Qed.

Lemma prepare_loop_stops (fmt : string) (good : list dict) (bad : value)
    (rest acc : list value) (e : exn) :
  processed_item fmt bad = Raise e →
  prepare_loop fmt ((VDict <$> good) ++ bad :: rest) acc = Raise e.
Proof.
  intros Hbad. revert acc. induction good as [|d good IH]; intros acc.
  - simpl. by rewrite Hbad.
  - rewrite fmap_cons, <- app_comm_cons. cbn [prepare_loop].
    destruct (processed_item_dict fmt d) as [r ->]. simpl. apply IH.
Qed.

(** X12: one record that is not a dict aborts [prepare_data] as a whole,
    for every format: the call raises [AttributeError] (for the [get] of
    the two known formats, for [values] otherwise) and returns none of the
    records before it. *)
Theorem prepare_data_rejects_non_dict (fmt : string) (good : list dict)
    (bad : value) (rest : list value) :
  (∀ d, bad ≠ VDict d) →
  prepare_data ((VDict <$> good) ++ bad :: rest) fmt
  = Raise (AttributeError
             (if String.eqb fmt "conversational" || String.eqb fmt "classifier"
              then "get" else "values")).
Proof.
  intros Hbad. unfold prepare_data. apply prepare_loop_stops.
  unfold processed_item.
  destruct (String.eqb fmt "conversational"), (String.eqb fmt "classifier");
    simpl; destruct bad; try done; by destruct (Hbad d).
Qed.

Lemma prepare_data_rejects_non_dict_witness :
  prepare_data [VDict {[ "user" := VStr "Hola" ]}; VStr "Hola"; VDict ∅]
    "conversational"
  = Raise (AttributeError "get").
Proof.
  exact (prepare_data_rejects_non_dict "conversational"
           [{[ "user" := VStr "Hola" ]}] (VStr "Hola") [VDict ∅]
           ltac:(intros d Hd; discriminate Hd)).
Defined.

Lemma resolve_alias_truthy_or_empty (item : dict) (aliases : list string) :
  truthy (resolve_alias item aliases) = true
  ∨ resolve_alias item aliases = VStr "".
Proof.
  induction aliases as [|a aliases IH]; [by right|].
  rewrite resolve_alias_cons. unfold py_or.
  destruct (truthy (get item a)) eqn:E; [by left|exact IH].
Qed.

Lemma py_or_fixed (v : value) :
  truthy v = true ∨ v = VStr "" →
  py_or v (py_or VNone (py_or VNone (VStr ""))) = v.
Proof. unfold py_or. by intros [->| ->]. Qed.

Lemma py_or_fixed1 (v : value) :
  truthy v = true ∨ v = VStr "" → py_or v (VStr "") = v.
Proof. unfold py_or. by intros [->| ->]. Qed.

Lemma conversational_item_idemp (d : dict) :
  conversational_item (conversational_item d) = conversational_item d.
Proof.
  rewrite (conversational_item_normalized d).
  unfold normalized, conversational_aliases. cbn [fmap list_fmap fst snd].
  pose proof (resolve_alias_truthy_or_empty d ["user"; "input"; "question"]) as Hu.
  pose proof (resolve_alias_truthy_or_empty d ["assistant"; "output"; "answer"]) as Ha.
  pose proof (resolve_alias_truthy_or_empty d ["context"]) as Hc.
  revert Hu Ha Hc.
  generalize (resolve_alias d ["user"; "input"; "question"]).
  generalize (resolve_alias d ["assistant"; "output"; "answer"]).
  generalize (resolve_alias d ["context"]).
  intros c a u Hu Ha Hc. cbn [list_to_map foldr uncurry].
  unfold conversational_item, get. simplify_map_eq.
  by rewrite (py_or_fixed u Hu), (py_or_fixed a Ha), (py_or_fixed1 c Hc).
Qed.

Lemma classifier_item_idemp (d : dict) :
  classifier_item (classifier_item d) = classifier_item d.
Proof.
  rewrite (classifier_item_normalized d).
  unfold normalized, classifier_aliases. cbn [fmap list_fmap fst snd].
  pose proof (resolve_alias_truthy_or_empty d ["text"; "input"; "user"]) as Ht.
  pose proof (resolve_alias_truthy_or_empty d ["label"; "category"; "class"]) as Hl.
  revert Ht Hl.
  generalize (resolve_alias d ["text"; "input"; "user"]).
  generalize (resolve_alias d ["label"; "category"; "class"]).
  intros l t Ht Hl. cbn [list_to_map foldr uncurry].
  unfold classifier_item, get. simplify_map_eq.
  by rewrite (py_or_fixed t Ht), (py_or_fixed l Hl).
Qed.

Lemma filter_fmap_idemp (f : dict → dict) (records : list dict) :
  (∀ d, f (f d) = f d) →
  filter (fun r => ¬ every_field_falsy r)
    (f <$> filter (fun r => ¬ every_field_falsy r) (f <$> records))
  = filter (fun r => ¬ every_field_falsy r) (f <$> records).
Proof.
  intros Hf. induction records as [|d records IH]; [done|].
  rewrite fmap_cons, filter_cons. case_decide as Hk.
  - rewrite fmap_cons, filter_cons, Hf. rewrite decide_True by done.
    by rewrite IH.
  - exact IH.
Qed.

(** X13: preparing prepared records changes nothing: for every format,
    [prepare_data] on dict records returns a list on which [prepare_data]
    with the same format returns that same list. *)
Theorem prepare_data_idempotent (fmt : string) (records : list dict) :
  ∃ out, prepare_data (VDict <$> records) fmt = Ok out
         ∧ prepare_data out fmt = Ok out.
Proof.
  assert (Hf : ∃ f : dict → dict,
             (∀ d, processed_item fmt (VDict d) = Ok (f d))
             ∧ ∀ d, f (f d) = f d).
  { unfold processed_item.
    destruct (String.eqb fmt "conversational").
    { exists conversational_item. split; [done|].
      apply conversational_item_idemp. }
    destruct (String.eqb fmt "classifier").
    { exists classifier_item. split; [done|]. apply classifier_item_idemp. }
    by exists (fun d => d). }
  destruct Hf as (f & Hp & Hidem). unfold prepare_data.
  exists (VDict <$> filter (fun r => ¬ every_field_falsy r) (f <$> records)).
  rewrite !(prepare_loop_dicts fmt f) by done.
  by rewrite filter_fmap_idemp.
Qed.

(** X14: with a format other than the two known ones the records are not
    rewritten: [prepare_data] returns, in order and unchanged, the dict
    records that have at least one truthy value. *)
Theorem prepare_data_other_format (fmt : string) (records : list dict) :
  fmt ≠ "conversational" → fmt ≠ "classifier" →
  prepare_data (VDict <$> records) fmt
  = Ok (VDict <$> filter (fun r => ¬ every_field_falsy r) records).
Proof.
  intros Hc Hk. unfold prepare_data.
  rewrite (prepare_loop_dicts fmt (fun d => d)).
  - by rewrite list_fmap_id.
  - intros d. unfold processed_item.
    apply String.eqb_neq in Hc, Hk. by rewrite Hc, Hk.
Qed.

Lemma prepare_data_other_format_witness :
  prepare_data [VDict {[ "q" := VStr "Hola" ]}; VDict ∅;
                VDict {[ "q" := VStr "" ]}] "raw"
  = Ok [VDict {[ "q" := VStr "Hola" ]}].
Proof.
  exact (prepare_data_other_format "raw"
           [{[ "q" := VStr "Hola" ]}; ∅; {[ "q" := VStr "" ]}]
           ltac:(intros Heq; discriminate Heq)
           ltac:(intros Heq; discriminate Heq)).
Defined.

(** X15: what [save_processed_data] wrote, [load_json_file] reads back:
    after a successful save of a record list, loading the same path returns
    that list. *)
Theorem save_then_load_json (data : list value) (path : string)
    (w w' : OS.world) :
  save_processed_data data path w = (w', Ok tt) →
  load_json_file w' path = Ok data.
Proof.
  unfold save_processed_data, load_json_file.
  destruct (OS.makedirs w (OS.dirname path)) as [w1 [[]|e]]; [|done].
  intros Hw. apply read_after_write in Hw. by rewrite Hw.
Qed.

Lemma save_then_load_json_witness :
  ∃ w', save_processed_data
          [VDict {[ "user" := VStr "Hola";
                    "assistant" := VStr "Hola, ¿cómo puedo ayudarte?" ]}]
          "tmp/test.json" Sample.configured_world = (w', Ok tt)
        ∧ load_json_file w' "tmp/test.json"
          = Ok [VDict {[ "user" := VStr "Hola";
                         "assistant" := VStr "Hola, ¿cómo puedo ayudarte?" ]}].
Proof.
  eexists. split; [reflexivity|].
  exact (save_then_load_json _ "tmp/test.json" Sample.configured_world _
           eq_refl).
Defined.

End PrepareMore.

(** ** Ratios that are not numbers, and the empty corpus *)

Section SplitEdges.
Context `{Random}.
Import DataProcessor.

Lemma SF64add_nan_r (x : spec_float) : SF64add x S754_nan = S754_nan.
Proof. by destruct x. Qed.

Lemma SF64mul_nan_r (x : spec_float) : SF64mul x S754_nan = S754_nan.
Proof. by destruct x. Qed.

Lemma SFltb_nan_r (x : spec_float) : SFltb x S754_nan = false.
Proof. by destruct x. Qed.

Lemma ratios_off_nan (total : float) : is_NaN total → ratios_off total = false.
Proof.
  unfold is_NaN, ratios_off. intros Hnan.
  rewrite ltb_spec, abs_spec, sub_spec, Hnan. simpl. apply SFltb_nan_r.
Qed.

Lemma sum_nan (tr vr te : float) :
  is_NaN tr ∨ is_NaN vr ∨ is_NaN te → is_NaN (tr + vr + te).
Proof.
  unfold is_NaN. rewrite !add_spec. intros [->|[->| ->]].
  - done.
  - by rewrite SF64add_nan_r.
  - by rewrite SF64add_nan_r.
Qed.

(** X16: a NaN among the ratios switches the validation off: the check
    [abs(total - 1.0) > 0.01] is false of a NaN sum, so the ratio error is
    never raised; with a NaN [train_ratio] the call then fails in [int()]
    with the [ValueError] for NaN, whatever the records. *)
Theorem nan_ratio_passes_the_check (data : list value)
    (train_ratio val_ratio test_ratio : float) (random_seed : Z) :
  is_NaN train_ratio ∨ is_NaN val_ratio ∨ is_NaN test_ratio →
  ratios_off (train_ratio + val_ratio + test_ratio) = false
  ∧ (∀ total, split_data data train_ratio val_ratio test_ratio random_seed
              ≠ Raise (RatioError total))
  ∧ (is_NaN train_ratio →
     split_data data train_ratio val_ratio test_ratio random_seed
     = Raise (ValueError "cannot convert float NaN to integer")).
Proof.
  intros Hnan. pose proof (ratios_off_nan _ (sum_nan _ _ _ Hnan)) as Hoff.
  split; [exact Hoff|]. split.
  - intros total. unfold split_data. rewrite Hoff.
    destruct (int_of_float (float_of_len _ * train_ratio)) as [a|e] eqn:Ea;
      simpl.
    + destruct (int_of_float (float_of_len _ * val_ratio)) as [b|e] eqn:Eb;
        simpl; [done|].
      intros [= ->]. by apply int_of_float_no_ratio_error in Eb.
    + intros [= ->]. by apply int_of_float_no_ratio_error in Ea.
  - intros Htr. unfold split_data. rewrite Hoff.
    assert (Hint : ∀ x, int_of_float (x * train_ratio)
                        = Raise (ValueError "cannot convert float NaN to integer")).
    { intros x. unfold int_of_float. rewrite mul_spec, Htr.
      by rewrite SF64mul_nan_r. }
    by rewrite Hint.
Qed.

(** X17: an empty corpus splits into three empty lists for every choice of
    ratios that passes the check and whose train and validation ratios are
    numbers. *)
Theorem split_data_empty (train_ratio val_ratio test_ratio : float)
    (random_seed : Z) :
  ratios_off (train_ratio + val_ratio + test_ratio) = false →
  is_number train_ratio → is_number val_ratio →
  split_data [] train_ratio val_ratio test_ratio random_seed
  = Ok ([], [], []).
Proof.
  intros Hoff Htr Hvr. unfold split_data. rewrite Hoff.
  assert (Hint : ∀ r, is_number r → int_of_float (float_of_len 0 * r) = Ok 0).
  { intros r Hr. unfold int_of_float, is_number in *. rewrite mul_spec.
    change (Prim2SF (float_of_len 0)) with (S754_zero false).
    by destruct (Prim2SF r). }
  change (length (shuffle (seed random_seed) [])) with 0%nat.
  by rewrite !Hint.
Qed.

End SplitEdges.

Lemma nan_ratio_passes_the_check_witness :
  DataProcessor.split_data (H := Sample.random) Sample.hundred
    PrimFloat.nan 0.15 0.15 42
  = Raise (ValueError "cannot convert float NaN to integer").
Proof.
  exact (proj2 (proj2 (nan_ratio_passes_the_check (H := Sample.random)
                         Sample.hundred PrimFloat.nan 0.15 0.15 42
                         (or_introl eq_refl)))
           eq_refl).
Defined.

Lemma split_data_empty_witness :
  DataProcessor.split_data (H := Sample.random) [] 0.7 0.15 0.15 42
  = Ok ([], [], []).
Proof.
  exact (split_data_empty (H := Sample.random) 0.7 0.15 0.15 42
           eq_refl I I).
Defined.

(** ** Utilities *)

Section UtilsFacts.
Import Utils.

(** X18: [truncate_text] returns a text no longer than [max_length]
    whenever the suffix fits in [max_length]: a short text is returned as it
    is, a longer one is cut to [max_length] characters that end with the
    suffix.  When the suffix is longer than [max_length], a text that is cut
    comes out longer than [max_length]. *)
Theorem truncate_text_length {A} (text suffix : list A) (max_length : Z) :
  (Z.of_nat (length suffix) ≤ max_length →
   Z.of_nat (length (truncate_text text max_length suffix)) ≤ max_length
   ∧ (max_length < Z.of_nat (length text) →
      truncate_text text max_length suffix
      = take (Z.to_nat max_length - length suffix) text ++ suffix
      ∧ Z.of_nat (length (truncate_text text max_length suffix)) = max_length))
  ∧ (Z.of_nat (length text) ≤ max_length →
     truncate_text text max_length suffix = text)
  ∧ (max_length < Z.of_nat (length suffix) →
     max_length < Z.of_nat (length text) →
     max_length < Z.of_nat (length (truncate_text text max_length suffix))).
Proof.
  unfold truncate_text. split; [|split].
  - intros Hs. destruct (Z.leb_spec (Z.of_nat (length text)) max_length) as [Hle|Hgt].
    { split; [done|lia]. }
    assert (Hcut : py_slice None (Some (max_length - Z.of_nat (length suffix))) text
                   = take (Z.to_nat max_length - length suffix) text).
    { unfold py_slice, slice_bound. simpl.
      rewrite (proj2 (Z.ltb_ge (max_length - Z.of_nat (length suffix)) 0)) by lia.
      rewrite (Z.min_l 0), Z.sub_0_r, Z2Nat.inj_0, drop_0 by lia.
      rewrite Z.min_l by lia. f_equal. lia. }
    rewrite Hcut. split; [|intros _; split; [done|]];
      rewrite length_app, length_take; lia.
  - intros Hle. by rewrite (proj2 (Z.leb_le _ _) Hle).
  - intros Hs Hgt. rewrite (proj2 (Z.leb_gt _ _) Hgt).
    rewrite length_app. lia.
Qed.

Lemma truncate_text_length_witness :
  truncate_text [1; 2; 3; 4; 5; 6; 7; 8; 9; 10]%N 6 [46; 46; 46]%N
  = [1; 2; 3; 46; 46; 46]%N.
Proof.
  exact (proj1 (proj2 (proj1 (truncate_text_length
                                [1; 2; 3; 4; 5; 6; 7; 8; 9; 10]%N
                                [46; 46; 46]%N 6)
                         ltac:(simpl; lia))
                  ltac:(simpl; lia))).
Defined.

Lemma filter_Forall_id {A} (P : A → Prop) `{∀ x, Decision (P x)} (l : list A) :
  Forall P l → filter P l = l.
Proof.
  induction 1 as [|x l Hx _ IH]; [done|].
  by rewrite filter_cons_True, IH.
Qed.

Lemma filter_valid_idemp (l : list N) :
  filter (fun c => c ∉ invalid_chars) (filter (fun c => c ∉ invalid_chars) l)
  = filter (fun c => c ∉ invalid_chars) l.
Proof.
  induction l as [|c l IH]; [done|].
  rewrite filter_cons. case_decide as Hc; [|exact IH].
  rewrite filter_cons, decide_True by done. by rewrite IH.
Qed.

Lemma filter_take_valid (n : nat) (l : list N) :
  Forall (fun c => c ∉ invalid_chars) l →
  filter (fun c => c ∉ invalid_chars) (take n l) = take n l.
Proof.
  intros Hl. apply filter_Forall_id. by apply Forall_take.
Qed.

Lemma slice_255 (l : list N) :
  py_slice None (Some 255) l = take 255 l.
Proof.
  unfold py_slice, slice_bound. simpl.
  rewrite (Z.min_l 0), Z.sub_0_r, Z2Nat.inj_0, drop_0 by lia.
  destruct (Z.min_spec 255 (Z.of_nat (length l))) as [[Hlt ->]|[Hge ->]];
    [done|].
  rewrite Nat2Z.id. by rewrite !take_ge by lia.
Qed.

(** X19: the name [sanitize_filename] returns holds none of the nine
    forbidden characters, has at most 255 characters, is a sublist of the
    name given, and is returned unchanged when sanitized again. *)
Theorem sanitize_filename_safe (filename : list N) :
  Forall (fun c => c ∉ invalid_chars) (sanitize_filename filename)
  ∧ (length (sanitize_filename filename) ≤ 255)%nat
  ∧ sanitize_filename filename `sublist_of` filename
  ∧ sanitize_filename (sanitize_filename filename) = sanitize_filename filename.
Proof.
  assert (Hvalid : Forall (fun c => c ∉ invalid_chars)
                     (filter (fun c => c ∉ invalid_chars) filename)).
  { apply Forall_forall. intros c Hc. by apply list_elem_of_filter in Hc as [? _]. }
  unfold sanitize_filename. rewrite !slice_255.
  destruct (Nat.ltb_spec 255 (length (filter (fun c => c ∉ invalid_chars) filename)))
    as [Hlong|Hshort].
  - split; [by apply Forall_take|]. split; [rewrite length_take; lia|].
    split; [etrans; [apply sublist_take|apply sublist_filter]|].
    rewrite filter_take_valid by done.
    rewrite (proj2 (Nat.ltb_ge _ _)) by (rewrite length_take; lia). done.
  - split; [done|]. split; [done|]. split; [apply sublist_filter|].
    rewrite filter_valid_idemp.
    by rewrite (proj2 (Nat.ltb_ge _ _)) by done.
Qed.

Lemma retry_loop_again {S A} (func : method S A) (n : nat) (s s' : S) (e : exn) :
  func s = (s', Raise e) →
  retry_loop (Datatypes.S (Datatypes.S n)) func s
  = retry_loop (Datatypes.S n) func s'.
Proof. intros Hs. simpl. by rewrite Hs. Qed.

Lemma retry_loop_first_success {S A} (func : method S A) (k n : nat)
    (s s1 s2 : S) (a : A) :
  after_failures k func s = Some s1 →
  func s1 = (s2, Ok a) →
  (k < n)%nat →
  retry_loop n func s = (s2, Ok (Some a)).
Proof.
  revert n s. induction k as [|k IH]; intros n s Hk Hf Hn.
  - injection Hk as ->. destruct n as [|n]; [lia|]. simpl. by rewrite Hf.
  - simpl in Hk. destruct (func s) as [s' [a'|e]] eqn:Hs; [done|].
    destruct n as [|[|n]]; [lia|lia|].
    rewrite (retry_loop_again _ _ _ _ _ Hs). apply IH; [done|done|lia].
Qed.

Lemma retry_loop_exhausted {S A} (func : method S A) (k : nat)
    (s s1 s2 : S) (e : exn) :
  after_failures k func s = Some s1 →
  func s1 = (s2, Raise e) →
  retry_loop (Datatypes.S k) func s = (s2, Raise e).
Proof.
  revert s. induction k as [|k IH]; intros s Hk Hf.
  - injection Hk as ->. simpl. by rewrite Hf.
  - simpl in Hk. destruct (func s) as [s' [a'|e']] eqn:Hs; [done|].
    rewrite (retry_loop_again _ _ _ _ _ Hs). by apply IH.
Qed.

(** X20: the wrapper of [retry_on_error] calls the function until it
    succeeds, at most [max_retries] times: after [k < max_retries] failed
    calls a successful call ends it with that result; when all
    [max_retries] calls fail, the exception of the last one is raised; and
    with [max_retries <= 0] the function is never called and [None] is
    returned. *)
Theorem retry_on_error_outcomes {S A} (func : method S A) (max_retries : Z)
    (s : S) :
  (∀ k s1 s2 a,
     after_failures k func s = Some s1 → func s1 = (s2, Ok a) →
     Z.of_nat k < max_retries →
     retry_on_error max_retries func s = (s2, Ok (Some a)))
  ∧ (∀ k s1 s2 e,
       after_failures k func s = Some s1 → func s1 = (s2, Raise e) →
       max_retries = Z.of_nat k + 1 →
       retry_on_error max_retries func s = (s2, Raise e))
  ∧ (max_retries ≤ 0 → retry_on_error max_retries func s = (s, Ok None)).
Proof.
  unfold retry_on_error. split; [|split].
  - intros k s1 s2 a Hk Hf Hlt.
    apply (retry_loop_first_success func k _ s s1); [done|done|lia].
  - intros k s1 s2 e Hk Hf ->.
    replace (Z.to_nat (Z.of_nat k + 1)) with (Datatypes.S k) by lia.
    by apply (retry_loop_exhausted func k s s1).
  - intros Hle. by replace (Z.to_nat max_retries) with 0%nat by lia.
Qed.

Lemma retry_on_error_outcomes_witness :
  retry_on_error 3 Sample.flaky 0%nat = (3%nat, Ok (Some "done"))
  ∧ retry_on_error 2 Sample.flaky 0%nat = (2%nat, Raise (ExternalError "timeout")).
Proof.
  split.
  - exact (proj1 (retry_on_error_outcomes Sample.flaky 3 0%nat) 2%nat 2%nat 3%nat
             "done" eq_refl eq_refl ltac:(lia)).
  - exact (proj1 (proj2 (retry_on_error_outcomes Sample.flaky 2 0%nat)) 1%nat 1%nat
             2%nat _ eq_refl eq_refl eq_refl).
Defined.

End UtilsFacts.

(** ** Limits that are not positive integers *)

Section HistoryEdges.
Import BaseAgent.

(** X21: a negative [limit] does not count from the end: [get_history]
    then drops the first [-limit] entries; [True] counts as [1]; and any
    other truthy limit that is not an integer (a string, a float, a list, a
    dict) raises [TypeError].  The agent is unchanged in every case. *)
Theorem get_history_other_limits (self : t) :
  (∀ n, n < 0 →
        get_history self (VInt n)
        = (self, Ok (drop (Z.to_nat (- n)) (history self))))
  ∧ get_history self (VBool true) = (self, Ok (last_n 1 (history self)))
  ∧ (∀ limit, truthy limit = true →
              (∀ z, limit ≠ VInt z) → (∀ b, limit ≠ VBool b) →
              ∃ what, get_history self limit = (self, Raise (TypeError what))).
Proof.
  split; [|split].
  - intros n Hn. unfold get_history. simpl.
    destruct (Z.eqb_spec n 0) as [->|_]; [lia|]. simpl.
    by rewrite slice_suffix by lia.
  - unfold get_history. simpl. by rewrite (slice_from_negative 1) by lia.
  - intros limit Ht Hz Hb. unfold get_history. rewrite Ht.
    destruct limit; simpl; try (by eexists); try done.
    + by destruct (Hb b).
    + by destruct (Hz z).
Qed.

Lemma get_history_other_limits_witness :
  get_history (Make (VDict ∅) (VStr "Agent") (VStr "1.0.0") Sample.past)
    (VInt (-1))
  = (Make (VDict ∅) (VStr "Agent") (VStr "1.0.0") Sample.past,
     Ok [Interaction "t2" "dos" "two"; Interaction "t3" "tres" "three"]).
Proof.
  exact (proj1 (get_history_other_limits
                  (Make (VDict ∅) (VStr "Agent") (VStr "1.0.0") Sample.past))
           (-1) ltac:(lia)).
Defined.

End HistoryEdges.

(** ** Saving again *)

Section SaveAgain.
Import OS.

Lemma mkdirs_keeps_dirs (name : string) (comps : list string) (w w' : world)
    (cur p : list string) (r : result unit) :
  mkdirs w name cur comps = (w', r) →
  node_at w p = Some Dir → node_at w' p = Some Dir.
Proof.
  revert w cur. induction comps as [|c comps IH]; intros w cur; simpl.
  - by intros [= <- _].
  - destruct (node_at w cur) as [[|?]|] eqn:Hcur; [|by intros [= <- _]..].
    destruct (node_at w (step cur c)) as [[|?]|] eqn:Hnext.
    + apply IH.
    + by intros [= <- _].
    + intros Hm Hp. apply (IH _ _ Hm).
      destruct w as [f cw]. rewrite node_at_insert_ne; [done|].
      intros ->. simpl in *. congruence.
Qed.

Lemma mkdirs_cwd (name : string) (comps : list string) (w w' : world)
    (cur : list string) (r : result unit) :
  mkdirs w name cur comps = (w', r) → cwd w' = cwd w.
Proof.
  revert w cur. induction comps as [|c comps IH]; intros w cur; simpl.
  - by intros [= <- _].
  - destruct (node_at w cur) as [[|?]|]; [|by intros [= <- _]..].
    destruct (node_at w (step cur c)) as [[|?]|].
    + apply IH.
    + by intros [= <- _].
    + intros Hm. by apply IH in Hm.
Qed.

Lemma mkdirs_dirs_along (name : string) (comps : list string) (w w' : world)
    (cur : list string) :
  mkdirs w name cur comps = (w', Ok tt) → dirs_along w' cur comps.
Proof.
  revert w cur. induction comps as [|c comps IH]; intros w cur; simpl; [done|].
  destruct (node_at w cur) as [[|?]|] eqn:Hcur; [|done..].
  destruct (node_at w (step cur c)) as [[|?]|] eqn:Hnext; [|done|].
  - intros Hm. split; [by apply (mkdirs_keeps_dirs _ _ _ _ _ _ _ Hm)|].
    split; [by apply (mkdirs_keeps_dirs _ _ _ _ _ _ _ Hm)|]. by apply (IH w).
  - intros Hm.
    assert (Hne : step cur c ≠ []) by (intros Heq; by rewrite Heq in Hnext).
    assert (Hne' : cur ≠ step cur c) by (intros Heq; congruence).
    destruct w as [f cw].
    split; [|split].
    + apply (mkdirs_keeps_dirs _ _ _ _ _ _ _ Hm).
      by rewrite node_at_insert_ne.
    + apply (mkdirs_keeps_dirs _ _ _ _ _ _ _ Hm).
      by rewrite node_at_insert_eq.
    + by apply (IH _ _ Hm).
Qed.

Lemma dirs_along_mkdirs (name : string) (comps : list string) (w : world)
    (cur : list string) :
  dirs_along w cur comps → mkdirs w name cur comps = (w, Ok tt).
Proof.
  revert cur. induction comps as [|c comps IH]; intros cur; simpl; [done|].
  intros (-> & -> & Hrest). by apply IH.
Qed.

Lemma dirs_along_write (comps : list string) (w : world) (cur p : list string)
    (doc : value) :
  node_at w p ≠ Some Dir →
  dirs_along w cur comps →
  dirs_along (World (<[p := File doc]> (fs w)) (cwd w)) cur comps.
Proof.
  intros Hp. revert cur. induction comps as [|c comps IH]; intros cur; simpl;
    [done|].
  intros (Hcur & Hnext & Hrest). destruct w as [f cw]. simpl in *.
  split; [|split; [|by apply IH]].
  - rewrite node_at_insert_ne; [done|]. intros ->. congruence.
  - rewrite node_at_insert_ne; [done|]. intros Heq. rewrite Heq in Hnext.
    congruence.
Qed.

(** X22: saving is repeatable: once [save] has succeeded for an agent on a
    path, saving it to that path again succeeds too, at any later time and
    whatever its history has become in between, as long as its name, version
    and configuration are the ones saved before; the file then holds the
    later snapshot, which differs from the earlier one in the timestamp
    only. *)
Theorem save_again_replaces_snapshot (self self' : BaseAgent.t)
    (now now' : string) (w w1 : world) (path : string) :
  BaseAgent.save self now w path = (w1, Ok tt) →
  BaseAgent.name self' = BaseAgent.name self →
  BaseAgent.version self' = BaseAgent.version self →
  BaseAgent.config self' = BaseAgent.config self →
  ∃ w2, BaseAgent.save self' now' w1 path = (w2, Ok tt)
        ∧ read_document w2 path = Ok (BaseAgent.save_data self now').
Proof.
  intros Hsave Hname Hversion Hconfig.
  assert (Hdata : BaseAgent.save_data self' now' = BaseAgent.save_data self now').
  { unfold BaseAgent.save_data. by rewrite Hname, Hversion, Hconfig. }
  revert Hsave. unfold BaseAgent.save, makedirs.
  destruct (String.eqb (dirname path) "") eqn:Hempty; [done|].
  destruct (mkdirs w (dirname path) (start_of w (dirname path))
              (split_sep (dirname path))) as [w0 [[]|e]] eqn:Hmk; [|done].
  intros Hw. pose proof (mkdirs_cwd _ _ _ _ _ _ Hmk) as Hcwd.
  apply mkdirs_dirs_along in Hmk.
  assert (Hw1 : ∃ p, node_at w0 p ≠ Some Dir
                     ∧ w1 = World (<[p := File (BaseAgent.save_data self now)]> (fs w0))
                              (cwd w0)).
  { unfold write_document in Hw. destruct (locate w0 path) as [p|]; [|done].
    exists p. destruct (node_at w0 p) as [[|?]|]; [done| |];
      by injection Hw as <-. }
  destruct Hw1 as (p & Hp & Hw1).
  assert (Hdirs : dirs_along w1 (start_of w1 (dirname path))
                    (split_sep (dirname path))).
  { assert (Hs : start_of w1 (dirname path) = start_of w (dirname path)).
    { rewrite Hw1. unfold start_of. cbn [cwd]. by rewrite Hcwd. }
    rewrite Hs, Hw1. by apply dirs_along_write. }
  rewrite (dirs_along_mkdirs _ _ _ _ Hdirs), Hdata.
  exact (write_again _ _ _ _ (BaseAgent.save_data self now') Hw).
Qed.

Lemma save_again_replaces_snapshot_witness :
  let self := BaseAgent.Make Sample.live_config (VStr "Mira") (VStr "2.0.0") [] in
  let later := BaseAgent.add_to_history self "t2" "Hola" "Buenas" in
  ∃ w1 w2,
    BaseAgent.save self "t1" Sample.configured_world "models/agent.json"
    = (w1, Ok tt)
    ∧ BaseAgent.save later "t3" w1 "models/agent.json" = (w2, Ok tt)
    ∧ read_document w2 "models/agent.json" = Ok (BaseAgent.save_data self "t3").
Proof.
  intros self later.
  destruct (save_again_replaces_snapshot self later "t1" "t3"
              Sample.configured_world _ "models/agent.json"
              eq_refl eq_refl eq_refl eq_refl)
    as (w2 & Hsave & Hread).
  exact (ex_intro _ _ (ex_intro _ w2 (conj eq_refl (conj Hsave Hread)))).
Defined.

End SaveAgain.

(** ** Cleaning text *)

Section CleanText.
Import DataProcessor.
Context `{Unicode}.

Lemma split_from_words (acc text : list char) :
  Forall (fun c => isspace c = false) acc →
  Forall word (split_from acc text).
Proof.
  revert acc. induction text as [|c rest IH]; intros acc Hacc; simpl.
  - destruct acc; [constructor|]. constructor; [done|constructor].
  - destruct (isspace c) eqn:Hc.
    + destruct acc; [by apply IH|].
      constructor; [done|]. by apply IH.
    + apply IH. apply Forall_app. split; [done|]. by constructor.
Qed.

Lemma split_from_chars (P : char → Prop) (acc text : list char) :
  Forall P acc → Forall P text → Forall (Forall P) (split_from acc text).
Proof.
  revert acc. induction text as [|c rest IH]; intros acc Hacc Htext; simpl.
  - destruct acc; [constructor|]. constructor; [done|constructor].
  - apply Forall_cons in Htext as [Hc Hrest].
    destruct (isspace c).
    + destruct acc; [by apply IH|]. constructor; [done|]. by apply IH.
    + apply IH; [|done]. apply Forall_app. split; [done|]. by constructor.
Qed.

Lemma split_from_word (acc w text : list char) :
  Forall (fun c => isspace c = false) w →
  split_from acc (w ++ text) = split_from (acc ++ w) text.
Proof.
  revert acc. induction w as [|c w IH]; intros acc Hw; simpl.
  - by rewrite app_nil_r.
  - apply Forall_cons in Hw as [-> Hw]. rewrite IH by done.
    by rewrite <- app_assoc.
Qed.

Lemma join_cons (sep w : list char) (words : list (list char)) :
  join sep (w :: words)
  = match words with [] => w | _ :: _ => w ++ sep ++ join sep words end.
Proof. done. Qed.

Lemma join_chars (P : char → Prop) (sep : list char) (words : list (list char)) :
  Forall P sep → Forall (Forall P) words → Forall P (join sep words).
Proof.
  intros Hsep. induction 1 as [|w words Hw Hwords IH]; [constructor|].
  rewrite join_cons. destruct words; [done|].
  apply Forall_app. split; [done|]. apply Forall_app. by split.
Qed.

Lemma split_join (words : list (list char)) :
  Forall word words → split (join [space] words) = words.
Proof.
  unfold split. induction 1 as [|w words [Hne Hw] Hwords IH]; [done|].
  rewrite join_cons. destruct words as [|w' words].
  - pose proof (split_from_word [] w [] Hw) as Hs.
    rewrite app_nil_r in Hs. rewrite Hs. simpl. by destruct w.
  - rewrite split_from_word by done. cbn [app split_from].
    rewrite isspace_space. destruct w; [done|]. by rewrite IH.
Qed.

Lemma join_head (sep w : list char) (words : list (list char)) :
  w ≠ [] → head (join sep (w :: words)) = head w.
Proof. rewrite join_cons. destruct w; [done|]. by destruct words. Qed.

Lemma join_last (words : list (list char)) (c : char) :
  Forall word words → last (join [space] words) = Some c → isspace c = false.
Proof.
  induction 1 as [|w words [Hne Hw] Hwords IH]; [done|].
  rewrite join_cons. destruct words as [|w' words].
  - intros Hl. apply last_Some in Hl as [l ->].
    apply Forall_app in Hw as [_ Hw]. by apply Forall_cons in Hw as [? _].
  - intros Hl. apply IH. revert Hl.
    apply Forall_cons in Hwords as [[Hne' _] _].
    assert (Hj : join [space] (w' :: words) ≠ []).
    { rewrite join_cons. destruct w'; [done|]. by destruct words. }
    rewrite app_assoc.
    destruct (join [space] (w' :: words)) as [|d l] using rev_ind; [done|].
    by rewrite app_assoc, !last_snoc.
Qed.

Lemma lstrip_suffix (text : list char) : lstrip text `suffix_of` text.
Proof.
  induction text as [|c rest IH]; simpl; [done|].
  destruct (isspace c); [|done]. by apply suffix_cons_r.
Qed.

Lemma lstrip_head (text : list char) (c : char) :
  head (lstrip text) = Some c → isspace c = false.
Proof.
  induction text as [|d rest IH]; simpl; [done|].
  destruct (isspace d) eqn:Hd; [done|]. simpl. by intros [= <-].
Qed.

Lemma lstrip_id (text : list char) :
  (∀ c, head text = Some c → isspace c = false) → lstrip text = text.
Proof. destruct text as [|c rest]; [done|]. simpl. intros Hc. by rewrite Hc. Qed.

Lemma rstrip_id (text : list char) :
  (∀ c, last text = Some c → isspace c = false) → rstrip text = text.
Proof.
  intros Hc. unfold rstrip. rewrite lstrip_id; [by rewrite reverse_involutive|].
  intros c. rewrite head_reverse. apply Hc.
Qed.

Lemma rstrip_last (text : list char) (c : char) :
  last (rstrip text) = Some c → isspace c = false.
Proof. unfold rstrip. rewrite last_reverse. apply lstrip_head. Qed.

Lemma rstrip_prefix (text : list char) : rstrip text `prefix_of` text.
Proof.
  unfold rstrip. destruct (lstrip_suffix (reverse text)) as [k Hk].
  exists (reverse k). rewrite <- reverse_app, <- Hk.
  by rewrite reverse_involutive.
Qed.

Lemma strip_inside (text : list char) :
  ∃ k1 k2, text = k1 ++ strip text ++ k2.
Proof.
  unfold strip. destruct (lstrip_suffix (rstrip text)) as [k1 Hk1].
  destruct (rstrip_prefix text) as [k2 Hk2]. exists k1, k2.
  by rewrite app_assoc, <- Hk1.
Qed.

Lemma strip_ends (text : list char) (c : char) :
  head (strip text) = Some c ∨ last (strip text) = Some c → isspace c = false.
Proof.
  unfold strip. intros [Hh|Hl]; [by apply lstrip_head in Hh|].
  destruct (lstrip_suffix (rstrip text)) as [k Hk].
  apply (rstrip_last text). rewrite Hk.
  destruct (lstrip (rstrip text)) as [|d l] using rev_ind; [done|].
  by rewrite app_assoc, !last_snoc in *.
Qed.

Lemma strip_id (text : list char) :
  (∀ c, head text = Some c ∨ last text = Some c → isspace c = false) →
  strip text = text.
Proof.
  intros Hc. unfold strip. rewrite rstrip_id by (intros; apply Hc; by right).
  apply lstrip_id. intros; apply Hc; by left.
Qed.

Lemma join_split_ends (text : list char) (c : char) :
  head (join [space] (split text)) = Some c
  ∨ last (join [space] (split text)) = Some c →
  isspace c = false.
Proof.
  pose proof (split_from_words [] text ltac:(constructor)) as Hw.
  fold (split text) in Hw. intros [Hh|Hl]; [|by apply (join_last _ _ Hw)].
  destruct Hw as [|w words [Hne Hw] _]; [done|].
  rewrite join_head in Hh by done. destruct w as [|d w]; [done|].
  injection Hh as <-. by apply Forall_cons in Hw as [? _].
Qed.

Lemma kept_spaced (c : char) :
  kept c = true → c = space ∨ isspace c = false → isprintable c = true.
Proof.
  unfold kept. intros Hk [->|Hc]; [apply isprintable_space|].
  destruct (isprintable c); [done|]. simpl in Hk.
  apply orb_prop in Hk as [Hk|Hk]; apply bool_decide_eq_true in Hk; subst c.
  - by rewrite isspace_newline in Hc.
  - by rewrite isspace_tab in Hc.
Qed.

Lemma join_split_spaced (text : list char) :
  Forall (fun c => c = space ∨ isspace c = false) (join [space] (split text)).
Proof.
  apply join_chars; [repeat constructor; by left|].
  eapply Forall_impl; [apply (split_from_words [] text); constructor|].
  intros w [_ Hw]. eapply Forall_impl; [exact Hw|]. intros c Hc. by right.
Qed.

(** X23: every character of a cleaned text is printable: the newlines
    and tabs that the filter of [clean_text] lets through never reach it,
    since [split] has removed them before; and a cleaned text neither
    starts nor ends with whitespace. *)
Theorem clean_text_printable (text : list char) :
  Forall (fun c => isprintable c = true) (clean_text text)
  ∧ (∀ c, head (clean_text text) = Some c ∨ last (clean_text text) = Some c →
          isspace c = false).
Proof.
  destruct text as [|c0 rest]; [split; [constructor|by intros c [|]]|].
  unfold clean_text. split; [|apply strip_ends].
  match goal with |- Forall _ (strip ?t) =>
    destruct (strip_inside t) as (k1 & k2 & Hin);
    cut (Forall (fun c => isprintable c = true) t);
    [intros Ht; rewrite Hin in Ht;
     by apply Forall_app in Ht as [_ [? _]%Forall_app]|];
    clear k1 k2 Hin
  end.
  apply Forall_forall. intros c [Hk Hc]%list_elem_of_filter.
  apply kept_spaced; [by destruct (kept c)|].
  by apply (proj1 (Forall_forall _ _) (join_split_spaced (c0 :: rest))).
Qed.

(** X24: on a text made of printable characters and whitespace
    [clean_text] returns the words of the text joined by single spaces, and
    cleaning that again changes nothing. *)
Theorem clean_text_normal_form (text : list char) :
  Forall (fun c => isprintable c = true ∨ isspace c = true) text →
  clean_text text = join [space] (split text)
  ∧ split (clean_text text) = split text
  ∧ clean_text (clean_text text) = clean_text text.
Proof.
  assert (Hclean : ∀ t,
    Forall (fun c => isprintable c = true ∨ isspace c = true) t →
    clean_text t = join [space] (split t)
    ∧ Forall (fun c => isprintable c = true) (join [space] (split t))).
  { intros t Ht.
    assert (Hp : Forall (fun c => isprintable c = true) (join [space] (split t))).
    { apply join_chars; [repeat constructor; apply isprintable_space|].
      pose proof (split_from_words [] t ltac:(constructor)) as Hw.
      pose proof (split_from_chars _ [] t ltac:(constructor) Ht) as Hc.
      fold (split t) in Hw, Hc. revert Hc.
      induction Hw as [|w ws [_ Hw] _ IH]; [constructor|].
      intros [Hc Hcs]%Forall_cons. constructor; [|by apply IH].
      clear IH Hcs. induction Hw as [|c w Hc' _ IH]; [constructor|].
      apply Forall_cons in Hc as [[Hc|Hc] Hcs]; [|congruence].
      constructor; [done|by apply IH]. }
    split; [|done]. destruct t as [|c0 rest]; [done|].
    unfold clean_text. rewrite filter_Forall_id.
    - apply strip_id, join_split_ends.
    - eapply Forall_impl; [exact Hp|]. intros c Hc. unfold kept.
      by rewrite Hc. }
  intros Ht. destruct (Hclean text Ht) as [Heq Hp].
  assert (Hs : split (join [space] (split text)) = split text).
  { apply split_join, (split_from_words [] text). constructor. }
  split; [done|]. rewrite Heq. split; [done|].
  destruct (Hclean (join [space] (split text))) as [-> _]; [|by rewrite Hs].
  eapply Forall_impl; [exact Hp|]. intros c Hc. by left.
Qed.

End CleanText.

Section CleanTextExamples.
Import DataProcessor.

Lemma clean_text_normal_form_witness :
  let clean_text := clean_text (H := Sample.ascii_text) in
  let text := String.list_ascii_of_string "  hola   mundo " in
  let cleaned := String.list_ascii_of_string "hola mundo" in
  clean_text text = cleaned ∧ clean_text (clean_text text) = cleaned.
Proof.
  intros clean_text text cleaned.
  destruct (clean_text_normal_form (H := Sample.ascii_text) text
              ltac:(by apply (bool_decide_unpack _))) as (H1 & _ & H3).
  split; [exact H1|]. exact (eq_trans H3 H1).
Defined.

End CleanTextExamples.
